(** * tldm: iteration adapters, backend selection and logging redirection

    A shallow embedding of [src/tldm/aliases.py] and [src/tldm/logging.py].
    Python objects that are mutated or compared by identity (loggers,
    handler lists, handlers) live in an explicit heap; calls to the
    collaborators the package only consumes (the progress-bar class, the
    logging subsystem, the notebook probe) are recorded as events. *)

From stdpp Require Import gmap strings list fin_maps functions.

Local Open Scope Z_scope.

(** ** Exceptions and outcomes *)

(** The exception classes the two modules raise, catch or let through.
    [KeyboardInterrupt], [SystemExit] and [GeneratorExit] derive from
    [BaseException] only; every other class derives from [Exception]. *)
Inductive exn :=
  | KeyboardInterrupt
  | SystemExit
  | GeneratorExit
  | KeyError
  | AttributeError
  | ImportError
  | TypeError
  | ValueError
  | ZeroDivisionError
  | OverflowError
  | TldmWarning
  | OtherException (tag : nat).

#[global] Instance exn_eq_dec : EqDecision exn.
Proof. solve_decision. Defined.

(** [isinstance(e, Exception)]: what a clause [except Exception] catches. *)
Definition is_Exception (e : exn) : bool :=
  match e with
  | KeyboardInterrupt | SystemExit | GeneratorExit => false
  | _ => true
  end.

(** Result of running a piece of Python: a value or a raised exception. *)
Inductive outcome (X : Type) :=
  | Returned (x : X)
  | Raised (e : exn).
Arguments Returned {X} x.
Arguments Raised {X} e.

(** ** Progress-bar classes, streams *)

(** A reference to a progress-bar class.  [StdTldm] is [tldm.std.tldm],
    [NotebookTldm] is [tldm.notebook.tldm]; [UserClass n] is a class handed
    in by the caller (a mock, a subclass). *)
Inductive class_ref :=
  | StdTldm
  | NotebookTldm
  | UserClass (n : nat).

#[global] Instance class_ref_eq_dec : EqDecision class_ref.
Proof. solve_decision. Defined.

(** Output streams, compared by identity. *)
Inductive stream :=
  | Stdout
  | Stderr
  | FileStream (fd : nat).

#[global] Instance stream_eq_dec : EqDecision stream.
Proof. solve_decision. Defined.

(** ** Python values *)

(** The values that travel through keyword arguments and iterables.
    [VFloatPow b e] is the float that [b ** e] evaluates to for a negative
    exponent [e]; it is kept symbolic.  [VCallable c] is a callable that is
    not a class (a factory function) and builds an instance of class [c]
    from the arguments it is called with.  No other value can be called. *)
#[warnings="-register-all"]
Inductive pyval :=
  | VNone
  | VInt (z : Z)
  | VFloatPow (b e : Z)
  | VStr (s : string)
  | VTuple (items : list pyval)
  | VClass (c : class_ref)
  | VCallable (c : class_ref).

(** ** Events and the effect monad *)

(** Calls to collaborators outside the two modules, in program order. *)
Inductive event :=
  | EvSysModules
  | EvGetIPython
  | EvImport (name : string)
  | EvWarn
  | EvNew (cls : class_ref) (iterable : option (list pyval)) (kwargs : gmap string pyval)
  | EvEnter
  | EvUpdate
  | EvExit
  | EvFormat (record : nat)
  | EvWrite (cls : class_ref) (msg : string) (file : stream)
  | EvFlush (s : stream)
  | EvHandleError (record : nat).

(** A computation yields an outcome and the events it caused. *)
Definition M (X : Type) : Type := outcome X * list event.

Definition ret {X} (x : X) : M X := (Returned x, []).
Definition raise {X} (e : exn) : M X := (Raised e, []).

(** An external call whose result the environment decides. *)
Definition call {X} (ev : event) (r : outcome X) : M X := (r, [ev]).

Definition bind {X Y} (m : M X) (k : X -> M Y) : M Y :=
  match m with
  | (Returned x, t) => let '(r, t') := k x in (r, t ++ t')
  | (Raised e, t) => (Raised e, t)
  end.

(** [try: m  except <catches>: handler] *)
Definition try_except {X} (m : M X) (catches : exn -> bool) (handler : exn -> M X) : M X :=
  match m with
  | (Raised e, t) =>
      if catches e then let '(r, t') := handler e in (r, t ++ t')
      else (Raised e, t)
  | (Returned x, t) => (Returned x, t)
  end.

Declare Scope py_scope.
Delimit Scope py_scope with py.
Notation "'let*' x := m 'in' k" := (bind m (λ x, k))
  (at level 10, x pattern, m at level 100, k at level 200) : py_scope.

(** Event classifiers. *)
Definition is_probe (ev : event) : bool :=
  match ev with
  | EvSysModules | EvGetIPython | EvImport _ | EvWarn => true
  | _ => false
  end.

Definition is_warn (ev : event) : bool :=
  match ev with EvWarn => true | _ => false end.

Definition is_update (ev : event) : bool :=
  match ev with EvUpdate => true | _ => false end.


Definition is_handle_error (ev : event) : bool :=
  match ev with EvHandleError _ => true | _ => false end.

Definition count_events (p : event -> bool) (t : list event) : nat :=
  length (List.filter p t).

(** ** The logging heap *)

Module Logging.

(** Which Python class a handler object is an instance of.
    [FileHandler]-like handlers are [StreamHandler]s on a file stream. *)
Inductive handler_kind :=
  | PlainHandler
  | StreamHandler
  | TqdmLoggingHandler (tqdm_class : class_ref).

(** The attributes of a handler object the module reads or writes. *)
Record handler := Handler {
  hd_kind : handler_kind;
  hd_stream : stream;
  hd_formatter : option nat;
  hd_level : Z;
}.

#[global] Instance handler_kind_eq_dec : EqDecision handler_kind.
Proof. solve_decision. Defined.
#[global] Instance handler_eq_dec : EqDecision handler.
Proof. solve_decision. Defined.

Definition is_stream_handler (h : handler) : bool :=
  match hd_kind h with
  | PlainHandler => false
  | StreamHandler | TqdmLoggingHandler _ => true
  end.

Abbreviation logger_id := nat (only parsing).
Abbreviation list_ref := nat (only parsing).
Abbreviation handler_ref := nat (only parsing).

(** The part of the interpreter state the redirector touches:
    - [h_loggers l] is the list object bound to [logger.handlers];
    - [h_lists] gives the contents of every list object;
    - [h_handlers] gives the attributes of every handler object. *)
Record heap := Heap {
  h_loggers : logger_id -> list_ref;
  h_lists : gmap list_ref (list handler_ref);
  h_handlers : gmap handler_ref handler;
}.

(** Contents of the list bound to [logger.handlers]. *)
Definition list_at (σ : heap) (r : list_ref) : list handler_ref :=
  default [] (h_lists σ !! r).

Definition handlers_of (σ : heap) (l : logger_id) : list handler_ref :=
  list_at σ (h_loggers σ l).

(** [logger.handlers = hs] where [hs] is a freshly built list object. *)
Definition set_handlers (l : logger_id) (hs : list handler_ref) (σ : heap) : heap :=
  let r := fresh (dom (h_lists σ)) in
  Heap (<[l := r]> (h_loggers σ)) (<[r := hs]> (h_lists σ)) (h_handlers σ).

(** [logger.handlers = r] where [r] is an existing list object. *)
Definition bind_handlers (l : logger_id) (r : list_ref) (σ : heap) : heap :=
  Heap (<[l := r]> (h_loggers σ)) (h_lists σ) (h_handlers σ).

(** Allocation of a new handler object. *)
Definition new_handler (h : handler) (σ : heap) : handler_ref * heap :=
  let r := fresh (dom (h_handlers σ)) in
  (r, Heap (h_loggers σ) (h_lists σ) (<[r := h]> (h_handlers σ))).

(** [_TqdmLoggingHandler(tqdm_class)]: [StreamHandler.__init__()] with no
    stream binds [sys.stderr]; [Handler.__init__] leaves the formatter
    unset and the level at [NOTSET] (0). *)
Definition TqdmLoggingHandler_init (tqdm_class : class_ref) : handler :=
  Handler (TqdmLoggingHandler tqdm_class) Stderr None 0.

(** [_is_console_logging_handler] *)
Definition is_console_handler (h : handler) : bool :=
  is_stream_handler h &&
  (bool_decide (hd_stream h = Stdout) || bool_decide (hd_stream h = Stderr)).

Definition _is_console_logging_handler (σ : heap) (r : handler_ref) : bool :=
  match h_handlers σ !! r with
  | Some h => is_console_handler h
  | None => false
  end.

(** [_get_first_found_console_logging_handler] *)
Fixpoint _get_first_found_console_logging_handler
    (σ : heap) (handlers : list handler_ref) : option handler_ref :=
  match handlers with
  | [] => None
  | handler :: rest =>
      if _is_console_logging_handler σ handler then Some handler
      else _get_first_found_console_logging_handler σ rest
  end.

(** The three attribute writes [setFormatter(orig.formatter)],
    [setLevel(orig.level)] and [stream = orig.stream]. *)
Definition setFormatter (fmt : option nat) (h : handler) : handler :=
  Handler (hd_kind h) (hd_stream h) fmt (hd_level h).
Definition setLevel (level : Z) (h : handler) : handler :=
  Handler (hd_kind h) (hd_stream h) (hd_formatter h) level.
Definition set_stream (s : stream) (h : handler) : handler :=
  Handler (hd_kind h) s (hd_formatter h) (hd_level h).

Definition copy_console_settings (orig : handler) (h : handler) : handler :=
  set_stream (hd_stream orig) (setLevel (hd_level orig) (setFormatter (hd_formatter orig) h)).

Definition update_handler (r : handler_ref) (f : handler -> handler) (σ : heap) : heap :=
  Heap (h_loggers σ) (h_lists σ) (alter f r (h_handlers σ)).

(** One iteration of the loop in the [try] block of [logging_redirect_tqdm]. *)
Definition redirect_logger (tqdm_class : class_ref) (σ : heap) (logger : logger_id) : heap :=
  let '(tqdm_handler, σ1) := new_handler (TqdmLoggingHandler_init tqdm_class) σ in
  let σ2 :=
    match _get_first_found_console_logging_handler σ1 (handlers_of σ1 logger) with
    | Some orig_handler =>
        match h_handlers σ1 !! orig_handler with
        | Some orig => update_handler tqdm_handler (copy_console_settings orig) σ1
        | None => σ1
        end
    | None => σ1
    end in
  set_handlers logger
    (List.filter (λ handler, negb (_is_console_logging_handler σ2 handler))
                 (handlers_of σ2 logger) ++ [tqdm_handler]) σ2.

(** [logging.root] *)
Definition root_logger : logger_id := 0%nat.

Definition default_loggers (loggers : option (list logger_id)) : list logger_id :=
  match loggers with
  | None => [root_logger]
  | Some ls => ls
  end.

(** [original_handlers_list = [logger.handlers for logger in loggers]]:
    references to the list objects, not copies. *)
Definition original_handlers_list (σ : heap) (loggers : list logger_id) : list list_ref :=
  h_loggers σ <$> loggers.

(** The generator body up to [yield]. *)
Definition redirect_enter (tqdm_class : class_ref) (loggers : list logger_id) (σ : heap) : heap :=
  foldl (redirect_logger tqdm_class) σ loggers.

(** The [finally] block. *)
Definition redirect_exit (loggers : list logger_id) (snapshot : list list_ref) (σ : heap) : heap :=
  foldl (λ σ' '(logger, original_handlers), bind_handlers logger original_handlers σ')
        σ (zip loggers snapshot).

(** [with logging_redirect_tqdm(loggers, tqdm_class): body].  The body
    either returns or raises; [contextmanager] resumes or throws into the
    generator at its [yield], so the [finally] block runs on both paths and
    the body's outcome is passed on. *)
Definition logging_redirect_tqdm {X} (loggers : option (list logger_id))
    (tqdm_class : class_ref) (body : heap -> outcome X * heap) (σ : heap)
    : outcome X * heap :=
  let loggers := default_loggers loggers in
  let snapshot := original_handlers_list σ loggers in
  let σ1 := redirect_enter tqdm_class loggers σ in
  match body σ1 with
  | (Returned x, σ2) => (Returned x, redirect_exit loggers snapshot σ2)
  | (Raised e, σ2) => (Raised e, redirect_exit loggers snapshot σ2)
  end.

(** What client code may do inside the scope: [Logger.addHandler] and
    [Logger.removeHandler] mutate the list currently bound to
    [logger.handlers] in place. *)
Definition store_list (r : list_ref) (hs : list handler_ref) (σ : heap) : heap :=
  Heap (h_loggers σ) (<[r := hs]> (h_lists σ)) (h_handlers σ).

Definition addHandler (l : logger_id) (h : handler_ref) (σ : heap) : heap :=
  if bool_decide (h ∈ handlers_of σ l) then σ
  else store_list (h_loggers σ l) (handlers_of σ l ++ [h]) σ.

(** Every [logger.handlers] is an allocated list and every handler in a
    list is an allocated object: no dangling references. *)
Definition heap_wf (σ : heap) : Prop :=
  (∀ l, h_loggers σ l ∈ dom (h_lists σ)) ∧
  (∀ r hs h, h_lists σ !! r = Some hs → h ∈ hs → h ∈ dom (h_handlers σ)).

(** The redirecting handler a logger receives: the first console handler's
    formatter, level and stream when there is one, else the defaults. *)
Definition expected_handler (tqdm_class : class_ref) (σ : heap) (l : logger_id) : handler :=
  match _get_first_found_console_logging_handler σ (handlers_of σ l) with
  | Some c =>
      match h_handlers σ !! c with
      | Some orig => copy_console_settings orig (TqdmLoggingHandler_init tqdm_class)
      | None => TqdmLoggingHandler_init tqdm_class
      end
  | None => TqdmLoggingHandler_init tqdm_class
  end.

Definition non_console (σ : heap) (hs : list handler_ref) : list handler_ref :=
  List.filter (λ handler, negb (_is_console_logging_handler σ handler)) hs.

(** [σ] still has every list and handler object of [σ0] as it was. *)
Definition preserves (σ0 σ : heap) : Prop :=
  (∀ h, h ∈ dom (h_handlers σ0) → h_handlers σ !! h = h_handlers σ0 !! h) ∧
  (∀ r, r ∈ dom (h_lists σ0) → h_lists σ !! r = h_lists σ0 !! r).

(** Logger [l] was redirected since [σ0]: its handlers are the
    non-console handlers it had in [σ0] and then one handler [t] that did
    not exist in [σ0], configured as [expected_handler] says. *)
Definition redirected (tqdm_class : class_ref) (σ0 σ : heap) (l : logger_id) : Prop :=
  ∃ t, handlers_of σ l = non_console σ0 (handlers_of σ0 l) ++ [t] ∧
       (t ∉ dom (h_handlers σ0)) ∧
       h_handlers σ !! t = Some (expected_handler tqdm_class σ0 l).

(** A heap to run the redirector on: logger 0 has a file handler, a
    console handler on [sys.stdout] and a plain handler; logger 1 shares
    the plain handler; every other logger has no handler. *)
Definition sample_heap : heap :=
  Heap (λ l, match l with 0%nat => 0%nat | 1%nat => 1%nat | _ => 2%nat end)
       (list_to_map [(0%nat, [0%nat; 1%nat; 2%nat]); (1%nat, [2%nat]); (2%nat, [])])
       (list_to_map [(0%nat, Handler StreamHandler (FileStream 7) (Some 1%nat) 10);
                     (1%nat, Handler StreamHandler Stdout (Some 2%nat) 20);
                     (2%nat, Handler PlainHandler Stderr None 30)]).

(** A scope body that adds the console handler to loggers 1 and 0 and then fails. *)
Definition sample_body (σ : heap) : outcome unit * heap :=
  (Raised ValueError, addHandler 0%nat 1%nat (addHandler 1%nat 1%nat σ)).

(** *** The redirecting handler's [emit] *)

(** What the calls made by [emit] do for a given handler and record:
    [self.format(record)], [tqdm_class.write(msg, file=stream)],
    [self.flush()] and [self.handleError(record)] each return or raise. *)
Record emit_env := EmitEnv {
  format_result : nat -> outcome string;
  write_result : class_ref -> string -> stream -> outcome unit;
  flush_result : stream -> outcome unit;
  handle_error_result : nat -> outcome unit;
}.

(** [self.tqdm_class]: only a [_TqdmLoggingHandler] has the attribute. *)
Definition tqdm_class_attr (self : handler) : M class_ref :=
  match hd_kind self with
  | TqdmLoggingHandler c => ret c
  | _ => raise AttributeError
  end.

(** The clause [except (KeyboardInterrupt, SystemExit): raise]. *)
Definition is_interrupt (e : exn) : bool :=
  match e with
  | KeyboardInterrupt | SystemExit => true
  | _ => false
  end.

(** [_TqdmLoggingHandler.emit].  The bare [except:] catches whatever the
    first clause did not re-raise and calls [handleError], which belongs to
    the logging subsystem: what it returns or raises is the result. *)
Definition emit (env : emit_env) (self : handler) (record : nat) : M unit :=
  (try_except
     (try_except
        (let* msg := call (EvFormat record) (format_result env record) in
         let* tqdm_class := tqdm_class_attr self in
         let* _ := call (EvWrite tqdm_class msg (hd_stream self))
                        (write_result env tqdm_class msg (hd_stream self)) in
         call (EvFlush (hd_stream self)) (flush_result env (hd_stream self)))
        is_interrupt (λ e, raise e))
     (λ e, negb (is_interrupt e))
     (λ _, call (EvHandleError record) (handle_error_result env record)))%py.

(** *** [tqdm_logging_redirect] *)


(** The stream the redirecting handler of logger [l] writes to. *)
Definition redirect_stream (σ : heap) (l : logger_id) : stream :=
  match _get_first_found_console_logging_handler σ (handlers_of σ l) with
  | Some c =>
      match h_handlers σ !! c with
      | Some orig => hd_stream orig
      | None => Stderr
      end
  | None => Stderr
  end.

End Logging.

(** ** The environment selector *)

Module Selector.

(** The state of the process as far as [_get_auto_tldm] can observe it:
    the result of every lookup, call and import it performs. *)
Record environment := Environment {
  (** [sys.modules["IPython"].get_ipython] *)
  env_get_ipython : outcome unit;
  (** ["IPKernelApp" in get_ipython().config] *)
  env_kernel_app : outcome bool;
  (** [from .notebook import WARN_NOIPYW] *)
  env_WARN_NOIPYW : outcome unit;
  (** [from .std import TldmWarning] *)
  env_TldmWarning : outcome unit;
  (** [from .notebook import IProgress]: the widget class, or [None] *)
  env_IProgress : outcome (option nat);
  (** [warn(WARN_NOIPYW, TldmWarning, stacklevel=2)] under the active filters *)
  env_warn : outcome unit;
  (** [from .notebook import tldm] *)
  env_notebook_tldm : outcome class_ref;
}.

Definition is_ImportError (e : exn) : bool := bool_decide (e = ImportError).

(** [_get_auto_tldm] *)
Definition _get_auto_tldm (env : environment) : M class_ref :=
  (try_except
     (let* _ := call EvSysModules (env_get_ipython env) in
      let* in_kernel := call EvGetIPython (env_kernel_app env) in
      let* _ := (if negb in_kernel then raise ImportError else ret tt) in
      let* _ := call (EvImport "WARN_NOIPYW") (env_WARN_NOIPYW env) in
      let* _ := call (EvImport "TldmWarning") (env_TldmWarning env) in
      let* IProgress :=
        try_except (call (EvImport "IProgress") (env_IProgress env))
                   is_ImportError (λ _, ret None) in
      let* _ :=
        match IProgress with
        | None => let* _ := call EvWarn (env_warn env) in raise ImportError
        | Some _ => ret tt
        end in
      let* notebook_tldm := call (EvImport "tldm") (env_notebook_tldm env) in
      ret notebook_tldm)
     is_Exception
     (λ _, ret StdTldm))%py.

(** Of the exception classes above, those that derive from
    [BaseException] and not from [Exception]: interruption and exit
    requests. *)
Definition base_exception_only (e : exn) : Prop :=
  e = KeyboardInterrupt ∨ e = SystemExit ∨ e = GeneratorExit.

(** An outcome that, when it is a failure, is one [except Exception]
    catches. *)
Definition catchable {X} (o : outcome X) : Prop :=
  match o with
  | Raised e => is_Exception e = true
  | Returned _ => True
  end.

(** No step of the probe is interrupted. *)
Definition uninterrupted (env : environment) : Prop :=
  catchable (env_get_ipython env) ∧ catchable (env_kernel_app env) ∧
  catchable (env_WARN_NOIPYW env) ∧ catchable (env_TldmWarning env) ∧
  catchable (env_IProgress env) ∧ catchable (env_warn env) ∧
  catchable (env_notebook_tldm env).

(** A notebook kernel in which Ctrl-C arrives while [tldm.notebook] is
    being imported. *)
Definition interrupted_env : environment :=
  Environment (Returned tt) (Returned true) (Raised KeyboardInterrupt)
              (Returned tt) (Returned (Some 0%nat)) (Returned tt)
              (Returned NotebookTldm).

(** A notebook kernel without the widget package. *)
Definition no_widgets_env : environment :=
  Environment (Returned tt) (Returned true) (Returned tt)
              (Returned tt) (Raised ImportError) (Returned tt)
              (Returned NotebookTldm).

(** A plain interpreter: [IPython] was never imported. *)
Definition console_env : environment :=
  Environment (Raised KeyError) (Raised AttributeError) (Returned tt)
              (Returned tt) (Raised ImportError) (Returned tt)
              (Returned NotebookTldm).

(** A notebook kernel with the widget package, where warnings are errors. *)
Definition widgets_env : environment :=
  Environment (Returned tt) (Returned true) (Returned tt)
              (Returned tt) (Returned (Some 1%nat)) (Raised TldmWarning)
              (Returned NotebookTldm).

End Selector.

(** ** The iteration adapters *)

Module Aliases.

(** The namespace of [tldm.aliases] once its body has run. *)
Record aliases_module := AliasesModule {
  auto_tldm : class_ref;
}.

(** Executing the module body: the assignment
    [auto_tldm = _get_auto_tldm()] is a top-level statement. *)
Definition import_aliases (env : Selector.environment) : M aliases_module :=
  (let* c := Selector._get_auto_tldm env in ret (AliasesModule c))%py.

(** *** Iterables and [operator.length_hint] *)

(** What [type(obj).__length_hint__(obj)] does, when it is defined. *)
Inductive length_hint_method :=
  | NoLengthHint
  | HintNotImplemented
  | HintValue (z : Z)
  | HintNotInt.

(** An input iterable: the items it produces, the value [len(obj)]
    returns ([None] for an object without [__len__]), and its
    [__length_hint__]. *)
Record iterable := Iterable {
  it_items : list pyval;
  it_len : option nat;
  it_length_hint : length_hint_method;
}.

Definition py_list (items : list pyval) : iterable :=
  Iterable items (Some (length items)) NoLengthHint.

Definition py_generator (items : list pyval) : iterable :=
  Iterable items None NoLengthHint.

(** [sys.maxsize], the largest [Py_ssize_t] (64-bit build). *)
Definition maxsize : Z := 2 ^ 63 - 1.

(** [operator.length_hint(obj)] with its default of 0: the length, else the
    hint, else the default; a hint that is not an integer is a [TypeError],
    one that does not fit a [Py_ssize_t] an [OverflowError], a negative
    one a [ValueError]. *)
Definition length_hint (obj : iterable) : outcome Z :=
  match it_len obj with
  | Some n => Returned (Z.of_nat n)
  | None =>
      match it_length_hint obj with
      | NoLengthHint | HintNotImplemented => Returned 0
      | HintNotInt => Raised TypeError
      | HintValue z =>
          if bool_decide (z < - maxsize - 1 ∨ maxsize < z) then Raised OverflowError
          else if bool_decide (z < 0) then Raised ValueError
          else Returned z
      end
  end.

(** [tuple(obj)]: the items, after the length hint was asked for as
    [length_hint] asks for it, with the same failures. *)
Definition py_tuple (obj : iterable) : outcome (list pyval) :=
  match length_hint obj with
  | Raised e => Raised e
  | Returned _ => Returned (it_items obj)
  end.

(** [list(map(f, xs))] for an [f] that may raise: the first failure wins. *)
Fixpoint list_map {X Y} (f : X -> outcome Y) (xs : list X) : outcome (list Y) :=
  match xs with
  | [] => Returned []
  | x :: xs' =>
      match f x with
      | Raised e => Raised e
      | Returned y =>
          match list_map f xs' with
          | Raised e => Raised e
          | Returned ys => Returned (y :: ys)
          end
      end
  end.

(** *** Builtins *)

(** [enumerate(it, start)] *)
Fixpoint py_enumerate (items : list pyval) (start : Z) : list pyval :=
  match items with
  | [] => []
  | x :: rest => VTuple [VInt start; x] :: py_enumerate rest (start + 1)
  end.

(** [zip(first, *rest)]: one item from each iterator in turn, stopping as
    soon as one of them is exhausted. *)
Fixpoint py_zip (first : list pyval) (rest : list (list pyval)) : list (list pyval) :=
  match first with
  | [] => []
  | x :: first' =>
      match mapM head rest with
      | Some xs => (x :: xs) :: py_zip first' (tail <$> rest)
      | None => []
      end
  end.

(** [float(x)] fails for an integer that rounds to 2 ** 1024 or more. *)
Definition float_overflow (x : Z) : bool :=
  bool_decide (2 ^ 1024 - 2 ^ 970 ≤ Z.abs x).

(** Float arithmetic is the platform's: [float_pow total y] is what
    [total ** y] does for an integer [total] and a float [y], a number or
    an exception. *)
Class float_arith := FloatArith {
  float_pow : Z -> pyval -> outcome pyval;
}.

(** [total ** repeat] for an integer [total].  A negative integer exponent
    makes it a float power: both operands are converted to float, then a
    zero base is refused.  A float exponent is the platform's business; a
    [repeat] that is no number is a [TypeError].  The power of integers is
    the mathematical one: time and memory are not modelled. *)
Definition py_pow `{!float_arith} (total : Z) (repeat : pyval) : outcome pyval :=
  match repeat with
  | VInt e =>
      if bool_decide (0 ≤ e) then Returned (VInt (total ^ e))
      else if float_overflow total || float_overflow e then Raised OverflowError
      else if bool_decide (total = 0) then Raised ZeroDivisionError
      else Returned (VFloatPow total e)
  | VFloatPow _ _ => float_pow total repeat
  | _ => Raised TypeError
  end.

(** The tuples of [itertools.product] over the pools, in the order of the
    reference implementation: the rightmost pool advances fastest. *)
Definition product (pools : list (list pyval)) : list (list pyval) :=
  foldl (λ result pool, x ← result; y ← pool; [x ++ [y]]) [[]] pools.

(** [itertools.product] keeps one index per pool: a positive repeat count
    is refused when [nargs * repeat] indices of eight bytes each would not
    fit the address range. *)
Definition repeat_too_large (nargs : nat) (r : Z) : bool :=
  bool_decide ((maxsize `div` 8) `div` r < Z.of_nat nargs).

(** [itertools.product] called with the iterables and [repeat=repeat]:
    the repeat count must be an integer that fits a [Py_ssize_t] and is
    not negative; with [repeat=0] the inputs are not looked at; otherwise
    the number of pools is checked and every input is turned into a
    tuple.  Running out of memory is not modelled. *)
Definition itertools_product (iterables : list iterable) (repeat : pyval)
    : outcome (list (list pyval)) :=
  match repeat with
  | VInt r =>
      if bool_decide (r < - maxsize - 1 ∨ maxsize < r) then Raised OverflowError
      else if bool_decide (r < 0) then Raised ValueError
      else
        match (if bool_decide (r = 0) then Returned []
               else if repeat_too_large (length iterables) r then Raised OverflowError
               else list_map py_tuple iterables) with
        | Raised e => Raised e
        | Returned pools => Returned (product (mjoin (replicate (Z.to_nat r) pools)))
        end
  | _ => Raised TypeError
  end.

(** [range(start, stop, step)] for a non-zero step. *)
Definition range_len (start stop step : Z) : Z :=
  if bool_decide (0 < step) then
    if bool_decide (start < stop) then (stop - start - 1) `div` step + 1 else 0
  else
    if bool_decide (stop < start) then (start - stop - 1) `div` (- step) + 1 else 0.

Definition range_items (start stop step : Z) : list pyval :=
  (λ i : nat, VInt (start + Z.of_nat i * step)) <$> seq 0 (Z.to_nat (range_len start stop step)).

(** [range] applied to one, two or three integers *)
Definition py_range (args : list Z) : outcome (list pyval) :=
  match args with
  | [stop] => Returned (range_items 0 stop 1)
  | [start; stop] => Returned (range_items start stop 1)
  | [start; stop; step] =>
      if bool_decide (step = 0) then Raised ValueError
      else Returned (range_items start stop step)
  | _ => Raised TypeError
  end.

(** *** Dictionary operations on keyword arguments *)

(** [kwargs.pop(key, default)] *)
Definition pop (key : string) (dflt : pyval) (kwargs : gmap string pyval)
    : pyval * gmap string pyval :=
  (default dflt (kwargs !! key), delete key kwargs).

(** [kwargs.setdefault(key, value)] *)
Definition setdefault (key : string) (value : pyval) (kwargs : gmap string pyval)
    : gmap string pyval :=
  match kwargs !! key with
  | Some _ => kwargs
  | None => <[key := value]> kwargs
  end.

(** What calling [v] constructs: an instance of the class itself, or of
    the class a factory builds; [None] when [v] is not callable. *)
Definition callable_class (v : pyval) : option class_ref :=
  match v with
  | VClass c | VCallable c => Some c
  | _ => None
  end.

Section Adapters.

(** The progress-bar class is consumed through its contract only:
    [iterate cls items] is what iterating an instance of [cls] built around
    an iterable with these items yields. *)
Variable iterate : class_ref -> list pyval -> list pyval.

Variable m : aliases_module.

Context `{!float_arith}.

(** [if tldm_class is None: tldm_class = auto_tldm] *)
Definition select_class (tldm_class : pyval) : pyval :=
  match tldm_class with
  | VNone => VClass (auto_tldm m)
  | _ => tldm_class
  end.

(** [tldm_class(iterable, **kwargs)]: a class or another callable builds
    the instance; calling a value that is not callable is a [TypeError].
    The instance is identified by its class. *)
Definition construct (tldm_class : pyval) (iterable : option (list pyval))
    (kwargs : gmap string pyval) : M class_ref :=
  match callable_class tldm_class with
  | Some c => call (EvNew c iterable kwargs) (Returned c)
  | None => raise TypeError
  end.

(** [tenumerate]; the result is the sequence the returned [enumerate]
    object yields. *)
Definition tenumerate (iterable : iterable) (start : Z) (total : pyval)
    (tldm_class : pyval) (tldm_kwargs : gmap string pyval) : M (list pyval) :=
  (let tldm_class := select_class tldm_class in
   let* bar := construct tldm_class (Some (it_items iterable))
                         (<["total" := total]> tldm_kwargs) in
   ret (py_enumerate (iterate bar (it_items iterable)) start))%py.

(** The tuples [tzip] yields, before they are packed. *)
Definition tzip_tuples (iter1 : iterable) (iter2plus : list iterable)
    (tldm_kwargs : gmap string pyval) : M (list (list pyval)) :=
  (let kwargs := tldm_kwargs in
   let '(tldm_class, kwargs) := pop "tldm_class" VNone kwargs in
   let tldm_class := select_class tldm_class in
   let* bar := construct tldm_class (Some (it_items iter1)) kwargs in
   ret (py_zip (iterate bar (it_items iter1)) (it_items <$> iter2plus)))%py.

(** [tzip], consumed to the end. *)
Definition tzip (iter1 : iterable) (iter2plus : list iterable)
    (tldm_kwargs : gmap string pyval) : M (list pyval) :=
  (let* tuples := tzip_tuples iter1 iter2plus tldm_kwargs in
   ret (VTuple <$> tuples))%py.

(** [tmap], consumed to the end; [tzip] needs its [iter1]. *)
Definition tmap (function : list pyval -> pyval) (sequences : list iterable)
    (tldm_kwargs : gmap string pyval) : M (list pyval) :=
  match sequences with
  | [] => raise TypeError
  | iter1 :: iter2plus =>
      (let* tuples := tzip_tuples iter1 iter2plus tldm_kwargs in
       ret (function <$> tuples))%py
  end.

(** [trange]; the result is what iterating the returned bar yields. *)
Definition trange (args : list Z) (kwargs : gmap string pyval) : M (list pyval) :=
  (let* items := (py_range args, []) in
   let* bar := construct (VClass (auto_tldm m)) (Some items) kwargs in
   ret (iterate bar items))%py.

(** *** [tproduct] as a generator *)

(** Lines 123-137: the class, the keyword arguments for its constructor
    and the repeat count. *)
Definition tproduct_setup (iterables : list iterable) (tldm_kwargs : gmap string pyval)
    : outcome (pyval * gmap string pyval * pyval) :=
  let kwargs := tldm_kwargs in
  let '(repeat, kwargs) := pop "repeat" (VInt 1) kwargs in
  let '(tldm_class, kwargs) := pop "tldm_class" VNone kwargs in
  let tldm_class := select_class tldm_class in
  match list_map length_hint iterables with
  | Raised TypeError => Returned (tldm_class, kwargs, repeat)
  | Raised e => Raised e
  | Returned lens =>
      let total := foldl Z.mul 1 lens in
      match py_pow total repeat with
      | Raised e => Raised e
      | Returned total => Returned (tldm_class, setdefault "total" total kwargs, repeat)
      end
  end.

(** Where the generator is: not started, suspended at its [yield] inside
    the [with] block with the tuples still to come, or finished. *)
Inductive tproduct_state :=
  | TPNew (iterables : list iterable) (tldm_kwargs : gmap string pyval)
  | TPSuspended (rest : list (list pyval))
  | TPFinished.

(** The head of the [for] loop: the next tuple is yielded, or the loop
    ends and the [with] block is left. *)
Definition tproduct_loop (rest : list (list pyval))
    : M (option (list pyval)) * tproduct_state :=
  match rest with
  | [] => ((Returned None, [EvExit]), TPFinished)
  | val :: rest' => ((Returned (Some val), []), TPSuspended rest')
  end.

(** One [next()] on the generator: [Some val] is a yielded tuple, [None]
    is [StopIteration]. *)
Definition tproduct_next (st : tproduct_state)
    : M (option (list pyval)) * tproduct_state :=
  match st with
  | TPNew iterables tldm_kwargs =>
      match tproduct_setup iterables tldm_kwargs with
      | Raised e => ((Raised e, []), TPFinished)
      | Returned (tldm_class, kwargs, repeat) =>
          match construct tldm_class None kwargs with
          | (Raised e, t) => ((Raised e, t), TPFinished)
          | (Returned _, t) =>
              match itertools_product iterables repeat with
              | Raised e => ((Raised e, t ++ [EvEnter; EvExit]), TPFinished)
              | Returned it =>
                  let '((r, t'), st') := tproduct_loop it in
                  ((r, t ++ [EvEnter] ++ t'), st')
              end
          end
      end
  | TPSuspended rest =>
      let '((r, t), st') := tproduct_loop rest in
      ((r, EvUpdate :: t), st')
  | TPFinished => ((Returned None, []), TPFinished)
  end.

(** [close()] on the generator, as when the consumer drops it:
    [GeneratorExit] is raised at the [yield] and leaves the [with] block. *)
Definition tproduct_close (st : tproduct_state) : list event * tproduct_state :=
  match st with
  | TPSuspended _ => ([EvExit], TPFinished)
  | _ => ([], TPFinished)
  end.

(** A consumer that asks for up to [n] tuples. *)
Fixpoint pull (n : nat) (st : tproduct_state)
    : list (list pyval) * list event * tproduct_state :=
  match n with
  | O => ([], [], st)
  | S n' =>
      match tproduct_next st with
      | ((Returned (Some val), t), st') =>
          let '(vals, t', st'') := pull n' st' in
          (val :: vals, t ++ t', st'')
      | ((_, t), st') => ([], t, st')
      end
  end.

(** [list(tproduct(...))]: [next()] until [StopIteration] or an exception;
    [None] when the fuel runs out first. *)
Fixpoint consume (fuel : nat) (st : tproduct_state)
    : option (outcome (list (list pyval)) * list event) :=
  match fuel with
  | O => None
  | S fuel' =>
      match tproduct_next st with
      | ((Returned (Some val), t), st') =>
          match consume fuel' st' with
          | Some (Returned vals, t') => Some (Returned (val :: vals), t ++ t')
          | Some (Raised e, t') => Some (Raised e, t ++ t')
          | None => None
          end
      | ((Returned None, t), _) => Some (Returned [], t)
      | ((Raised e, t), _) => Some (Raised e, t)
      end
  end.

(** What a consumer can do with the generator object. *)
Inductive gen_op :=
  | OpNext
  | OpClose.

(** Any sequence of [next()] and [close()] calls, with the events of all
    of them; an exception of [next()] is the consumer's to handle and does
    not stop it from calling again. *)
Fixpoint run_ops (ops : list gen_op) (st : tproduct_state)
    : list event * tproduct_state :=
  match ops with
  | [] => ([], st)
  | OpNext :: ops' =>
      let '((_, t), st') := tproduct_next st in
      let '(t', st'') := run_ops ops' st' in
      (t ++ t', st'')
  | OpClose :: ops' =>
      let '(t, st') := tproduct_close st in
      let '(t', st'') := run_ops ops' st' in
      (t ++ t', st'')
  end.

(** One operation of the consumer: its events and the state it leaves. *)
Definition gen_step (op : gen_op) (st : tproduct_state) : list event * tproduct_state :=
  match op with
  | OpNext => ((tproduct_next st).1.2, (tproduct_next st).2)
  | OpClose => tproduct_close st
  end.

(** The events a generator in state [st] can have caused so far: none
    before the first [next()]; constructor, enter and updates while
    suspended; once finished, none at all or constructor, enter, updates
    and one final exit. *)
Definition bar_events (st : tproduct_state) (t : list event) : Prop :=
  match st with
  | TPNew _ _ => t = []
  | TPSuspended _ =>
      ∃ c kw (k : nat), t = [EvNew c None kw; EvEnter] ++ replicate k EvUpdate
  | TPFinished =>
      t = [] ∨
      ∃ c kw (k : nat), t = [EvNew c None kw; EvEnter] ++ replicate k EvUpdate ++ [EvExit]
  end.

End Adapters.

(** The mock class of [tests/test_lazy_imports.py]:
    [self.iterable = iterable or []] and [iter(self.iterable)]. *)
Definition MockTldm_iter (iterable : list pyval) : list pyval :=
  match iterable with
  | [] => []
  | _ => iterable
  end.

(** Keyword arguments used in the concrete runs. *)
Definition kw_none : gmap string pyval := ∅.
Definition kw_repeat_2 : gmap string pyval := {["repeat" := VInt 2]}.
Definition kw_total_4 : gmap string pyval := {["total" := VInt 4]}.
Definition kw_mock_class : gmap string pyval := {["tldm_class" := VClass (UserClass 0)]}.

Definition list_12 : iterable := py_list [VInt 1; VInt 2].
Definition list_34 : iterable := py_list [VInt 3; VInt 4].

(** The classes whose constructor a run called, in order. *)
Definition constructed (t : list event) : list class_ref :=
  omap (λ ev, match ev with EvNew c _ _ => Some c | _ => None end) t.

(** A platform for the concrete runs, none of which raises an integer to
    a float power: one on which doing so overflows. *)
Definition sample_float_arith : float_arith := FloatArith (λ _ _, Raised OverflowError).

(** A class table in which every class iterates the way the mock does. *)
Definition mock_iterate (c : class_ref) : list pyval -> list pyval := MockTldm_iter.

Definition sample_module : aliases_module := AliasesModule StdTldm.

(** A session in a notebook kernel without widgets: the package is
    imported, then [tenumerate] is called with an explicit mock class. *)
Definition explicit_class_session : M (list pyval) :=
  (let* m := import_aliases Selector.no_widgets_env in
   tenumerate mock_iterate m (py_list [VInt 1; VInt 2]) 0 VNone
              (VClass (UserClass 0)) kw_none)%py.

(** More inputs for the concrete runs. *)
Definition kw_repeat_neg : gmap string pyval := {["repeat" := VInt (-1)]}.
Definition kw_repeat_0 : gmap string pyval := {["repeat" := VInt 0]}.
Definition kw_bad_class : gmap string pyval := {["tldm_class" := VInt 7]}.
Definition bad_hint : iterable := Iterable [] None (HintValue (-1)).
Definition add_pair (i : list pyval) : pyval :=
  match i with
  | [VInt a; VInt b] => VInt (a + b)
  | _ => VNone
  end.

End Aliases.

(** * Properties *)

(** ** Logging redirection *)

Section LoggingFacts.
Import Logging.

Implicit Types (σ : heap) (hs : list nat).

(** Heaps that agree on the handlers of a list classify them alike. *)
Lemma first_console_agree σ σ' hs :
  (∀ h, h ∈ hs → h_handlers σ' !! h = h_handlers σ !! h) →
  _get_first_found_console_logging_handler σ' hs =
  _get_first_found_console_logging_handler σ hs.
Proof.
  induction hs as [|h hs IH]; intros Hag; [done|].
  cbn. unfold _is_console_logging_handler.
  rewrite (Hag h) by apply list_elem_of_here.
  rewrite IH; [done|]. intros h' Hh'. apply Hag. by apply list_elem_of_further.
Qed.

Lemma non_console_agree σ σ' hs :
  (∀ h, h ∈ hs → h_handlers σ' !! h = h_handlers σ !! h) →
  non_console σ' hs = non_console σ hs.
Proof.
  intros Hag. unfold non_console. apply List.filter_ext_in.
  intros h Hin%list_elem_of_In. unfold _is_console_logging_handler.
  by rewrite (Hag h Hin).
Qed.

Lemma non_console_elem σ hs h :
  h ∈ non_console σ hs → h ∈ hs ∧ _is_console_logging_handler σ h = false.
Proof.
  unfold non_console. rewrite list_elem_of_In, List.filter_In, <- list_elem_of_In.
  intros [? Hn]. split; [done|]. by apply negb_true_iff.
Qed.

(** Filtering a list without console handlers changes nothing. *)
Lemma non_console_id σ hs :
  (∀ h, h ∈ hs → _is_console_logging_handler σ h = false) →
  non_console σ hs = hs.
Proof.
  induction hs as [|h hs IH]; intros Hn; [done|].
  unfold non_console in *. cbn. rewrite (Hn h) by apply list_elem_of_here. cbn.
  f_equal. apply IH. intros h' Hh'. apply Hn. by apply list_elem_of_further.
Qed.

Lemma first_console_none σ hs :
  (∀ h, h ∈ hs → _is_console_logging_handler σ h = false) →
  _get_first_found_console_logging_handler σ hs = None.
Proof.
  induction hs as [|h hs IH]; intros Hn; [done|].
  cbn. rewrite (Hn h) by apply list_elem_of_here.
  apply IH. intros h' Hh'. apply Hn. by apply list_elem_of_further.
Qed.

Lemma first_console_app_none σ hs hs' :
  _get_first_found_console_logging_handler σ hs = None →
  _get_first_found_console_logging_handler σ (hs ++ hs') =
  _get_first_found_console_logging_handler σ hs'.
Proof.
  induction hs as [|h hs IH]; [done|]. cbn.
  destruct (_is_console_logging_handler σ h); [done|]. apply IH.
Qed.

Lemma first_console_elem σ hs c :
  _get_first_found_console_logging_handler σ hs = Some c →
  c ∈ hs ∧ _is_console_logging_handler σ c = true.
Proof.
  induction hs as [|h hs IH]; [done|]. cbn.
  destruct (_is_console_logging_handler σ h) eqn:Hc.
  - intros [= <-]. split; [apply list_elem_of_here | done].
  - intros [? ?]%IH. split; [by apply list_elem_of_further | done].
Qed.

Lemma non_console_app σ hs hs' :
  non_console σ (hs ++ hs') = non_console σ hs ++ non_console σ hs'.
Proof. unfold non_console. apply List.filter_app. Qed.

(** The heap after the redirecting handler was created and configured:
    nothing but the new handler differs. *)
Lemma redirect_logger_unfold cls σ l :
  let t := fresh (dom (h_handlers σ)) in
  ∃ σ2,
    redirect_logger cls σ l =
      set_handlers l (non_console σ2 (handlers_of σ2 l) ++ [t]) σ2 ∧
    h_loggers σ2 = h_loggers σ ∧
    h_lists σ2 = h_lists σ ∧
    (∀ h, h ≠ t → h_handlers σ2 !! h = h_handlers σ !! h) ∧
    ((∀ h, h ∈ handlers_of σ l → h ∈ dom (h_handlers σ)) →
     h_handlers σ2 !! t = Some (expected_handler cls σ l)).
Proof.
  intros t.
  assert (Ht : t ∉ dom (h_handlers σ)) by apply is_fresh.
  set (σ1 := Heap (h_loggers σ) (h_lists σ)
                  (<[t := TqdmLoggingHandler_init cls]> (h_handlers σ))).
  eexists. split; [unfold redirect_logger, new_handler; cbv zeta; reflexivity|].
  fold t. fold σ1. change (handlers_of σ1 l) with (handlers_of σ l).
  assert (Hne : ∀ h, h ∈ handlers_of σ l → h ∈ dom (h_handlers σ) → h ≠ t)
    by (intros h _ Hd ->; done).
  destruct (_get_first_found_console_logging_handler σ1 (handlers_of σ l))
    as [c|] eqn:Hc1.
  - destruct (h_handlers σ1 !! c) as [orig|] eqn:Horig.
    + cbn. repeat split.
      * intros h Hh. rewrite lookup_alter_ne by done. by rewrite lookup_insert_ne.
      * intros Hin. rewrite lookup_alter_eq, lookup_insert_eq. cbn.
        assert (Hag : ∀ h, h ∈ handlers_of σ l →
                      h_handlers σ1 !! h = h_handlers σ !! h).
        { intros h Hh. cbn. apply lookup_insert_ne. intros <-. by apply Ht, Hin. }
        unfold expected_handler.
        rewrite <- (first_console_agree σ σ1) by done. rewrite Hc1.
        apply first_console_elem in Hc1 as [Hcin _].
        rewrite <- (Hag c Hcin), Horig. done.
    + cbn. repeat split.
      * intros h Hh. by rewrite lookup_insert_ne.
      * intros Hin. rewrite lookup_insert_eq.
        assert (Hag : ∀ h, h ∈ handlers_of σ l →
                      h_handlers σ1 !! h = h_handlers σ !! h).
        { intros h Hh. cbn. apply lookup_insert_ne. intros <-. by apply Ht, Hin. }
        unfold expected_handler.
        rewrite <- (first_console_agree σ σ1) by done. rewrite Hc1.
        apply first_console_elem in Hc1 as [Hcin _].
        rewrite <- (Hag c Hcin), Horig. done.
  - cbn. repeat split.
    + intros h Hh. by rewrite lookup_insert_ne.
    + intros Hin. rewrite lookup_insert_eq.
      assert (Hag : ∀ h, h ∈ handlers_of σ l →
                    h_handlers σ1 !! h = h_handlers σ !! h).
      { intros h Hh. cbn. apply lookup_insert_ne. intros <-. by apply Ht, Hin. }
      unfold expected_handler.
      rewrite <- (first_console_agree σ σ1) by done. by rewrite Hc1.
Qed.
Lemma handlers_of_wf σ l h :
  heap_wf σ → h ∈ handlers_of σ l → h ∈ dom (h_handlers σ).
Proof.
  intros [_ Hwh]. unfold handlers_of, list_at.
  destruct (h_lists σ !! h_loggers σ l) as [hs|] eqn:E; cbn.
  - intros Hh. by eapply Hwh.
  - by intros ?%elem_of_nil.
Qed.

(** One pass of the loop, on the logger it rebinds and on everything else. *)
Lemma redirect_logger_spec cls σ l :
  heap_wf σ →
  let σ' := redirect_logger cls σ l in
  let t := fresh (dom (h_handlers σ)) in
  heap_wf σ' ∧
  (∀ h, h ∈ dom (h_handlers σ) → h_handlers σ' !! h = h_handlers σ !! h) ∧
  (∀ r, r ∈ dom (h_lists σ) → h_lists σ' !! r = h_lists σ !! r) ∧
  (∀ l', l' ≠ l → h_loggers σ' l' = h_loggers σ l') ∧
  handlers_of σ' l = non_console σ (handlers_of σ l) ++ [t] ∧
  h_handlers σ' !! t = Some (expected_handler cls σ l).
Proof.
  intros Hwf σ' t. pose proof Hwf as [Hwl Hwh].
  assert (Ht : t ∉ dom (h_handlers σ)) by apply is_fresh.
  assert (Hr : fresh (dom (h_lists σ)) ∉ dom (h_lists σ)) by apply is_fresh.
  destruct (redirect_logger_unfold cls σ l) as (σ2 & Heq & Hl2 & Hls2 & Hh2 & Ht2).
  fold t in Heq, Hh2, Ht2. subst σ'. rewrite Heq. clear Heq.
  specialize (Ht2 (λ h, handlers_of_wf σ l h Hwf)).
  assert (Hof : handlers_of σ2 l = handlers_of σ l).
  { unfold handlers_of, list_at. by rewrite Hl2, Hls2. }
  assert (Hnc : non_console σ2 (handlers_of σ l) = non_console σ (handlers_of σ l)).
  { apply non_console_agree. intros h Hh. apply Hh2. intros ->.
    by apply Ht, (handlers_of_wf σ l). }
  rewrite Hof, Hnc.
  unfold set_handlers. rewrite Hls2, Hl2. cbn.
  set (r := fresh (dom (h_lists σ))) in *.
  assert (Hdom2 : ∀ h, h ∈ dom (h_handlers σ) → h ∈ dom (h_handlers σ2)).
  { intros h Hh. apply elem_of_dom. rewrite Hh2 by (by intros ->).
    by apply elem_of_dom. }
  repeat split.
  - intros l'. cbn. rewrite dom_insert. unfold insert, fn_insert.
    case_decide; set_solver.
  - intros r' hs h. cbn. rewrite lookup_insert. case_decide.
    + intros [= <-] [Hh|Hh%list_elem_of_singleton]%elem_of_app.
      * apply Hdom2. apply non_console_elem in Hh as [Hh _].
        by apply (handlers_of_wf σ l).
      * subst h. apply elem_of_dom. by rewrite Ht2.
    + intros Hhs Hh. apply Hdom2. by eapply Hwh.
  - intros h Hh. apply Hh2. by intros ->.
  - intros r' Hr'. rewrite lookup_insert_ne; [done|]. by intros ->.
  - intros l' Hl'. by rewrite fn_lookup_insert_ne.
  - unfold handlers_of, list_at. cbn.
    rewrite fn_lookup_insert, lookup_insert_eq. done.
  - done.
Qed.
Lemma expected_handler_kind cls σ l :
  hd_kind (expected_handler cls σ l) = TqdmLoggingHandler cls.
Proof.
  unfold expected_handler.
  destruct (_get_first_found_console_logging_handler σ (handlers_of σ l)); [|done].
  by destruct (h_handlers σ !! _).
Qed.

(** The redirecting handler is itself a console handler: its stream is
    [sys.stderr] or the console stream it copied. *)
Lemma expected_handler_console cls σ l :
  is_console_handler (expected_handler cls σ l) = true.
Proof.
  unfold expected_handler.
  destruct (_get_first_found_console_logging_handler σ (handlers_of σ l))
    as [c|] eqn:Hc; [|done].
  apply first_console_elem in Hc as [_ Hc]. unfold _is_console_logging_handler in Hc.
  destruct (h_handlers σ !! c) as [orig|]; [|done].
  unfold is_console_handler in *. cbn.
  by apply andb_true_iff in Hc as [_ ->].
Qed.

Lemma copy_console_settings_idem cls (E : handler) :
  hd_kind E = TqdmLoggingHandler cls →
  copy_console_settings E (TqdmLoggingHandler_init cls) = E.
Proof. destruct E as [k s f lv]. cbn. by intros ->. Qed.

Lemma preserves_refl σ : preserves σ σ.
Proof. by split. Qed.

Lemma preserves_dom_handlers σ0 σ h :
  preserves σ0 σ → h ∈ dom (h_handlers σ0) → h ∈ dom (h_handlers σ).
Proof.
  intros [Hp _] Hh. apply elem_of_dom. rewrite Hp by done. by apply elem_of_dom.
Qed.

Lemma preserves_dom_lists σ0 σ r :
  preserves σ0 σ → r ∈ dom (h_lists σ0) → r ∈ dom (h_lists σ).
Proof.
  intros [_ Hp] Hr. apply elem_of_dom. rewrite Hp by done. by apply elem_of_dom.
Qed.

Lemma preserves_trans σ0 σ1 σ2 :
  preserves σ0 σ1 → preserves σ1 σ2 → preserves σ0 σ2.
Proof.
  intros H01 H12. split.
  - intros h Hh. destruct H12 as [-> _]; [by apply H01 | by eapply preserves_dom_handlers].
  - intros r Hr. destruct H12 as [_ ->]; [by apply H01 | by eapply preserves_dom_lists].
Qed.

Lemma redirect_logger_preserves cls σ l :
  heap_wf σ → preserves σ (redirect_logger cls σ l).
Proof.
  intros Hwf. destruct (redirect_logger_spec cls σ l Hwf) as (_ & ? & ? & _). by split.
Qed.

(** A logger whose binding is that of [σ0] has the handlers of [σ0]. *)
Lemma handlers_of_preserved σ0 σ l :
  heap_wf σ0 → preserves σ0 σ → h_loggers σ l = h_loggers σ0 l →
  handlers_of σ l = handlers_of σ0 l.
Proof.
  intros [Hwl _] [_ Hp] Hl. unfold handlers_of, list_at. rewrite Hl. by rewrite Hp.
Qed.

Lemma console_preserved σ0 σ hs :
  preserves σ0 σ → (∀ h, h ∈ hs → h ∈ dom (h_handlers σ0)) →
  non_console σ hs = non_console σ0 hs ∧
  _get_first_found_console_logging_handler σ hs =
  _get_first_found_console_logging_handler σ0 hs.
Proof.
  intros [Hp _] Hin. split.
  - apply non_console_agree. intros h Hh. by apply Hp, Hin.
  - apply first_console_agree. intros h Hh. by apply Hp, Hin.
Qed.
(** Redirecting a logger, for the first time or again, leaves it
    redirected with respect to the heap at scope entry. *)
Lemma redirect_logger_redirects cls σ0 σ l :
  heap_wf σ0 → heap_wf σ → preserves σ0 σ →
  h_loggers σ l = h_loggers σ0 l ∨ redirected cls σ0 σ l →
  redirected cls σ0 (redirect_logger cls σ l) l.
Proof.
  intros Hwf0 Hwf Hp Hst.
  destruct (redirect_logger_spec cls σ l Hwf) as (_ & _ & _ & _ & Hof & Ht).
  set (t' := fresh (dom (h_handlers σ))) in *.
  assert (Ht' : t' ∉ dom (h_handlers σ0)).
  { intros Hd. apply (is_fresh (dom (h_handlers σ))).
    by eapply preserves_dom_handlers. }
  exists t'. rewrite Hof, Ht.
  destruct Hst as [Hun | (t & Hl & Htn & Htl)].
  - pose proof (handlers_of_preserved σ0 σ l Hwf0 Hp Hun) as Heq.
    destruct (console_preserved σ0 σ (handlers_of σ0 l) Hp) as [Hnc Hfc].
    { intros h. by apply handlers_of_wf. }
    rewrite Heq, Hnc. repeat split; [done|].
    f_equal. unfold expected_handler. rewrite Heq, Hfc.
    destruct (_get_first_found_console_logging_handler σ0 (handlers_of σ0 l))
      as [c|] eqn:Hc; [|done].
    apply first_console_elem in Hc as [Hc _].
    destruct Hp as [Hp _]. rewrite Hp; [done|]. by apply (handlers_of_wf σ0 l).
  - set (F := non_console σ0 (handlers_of σ0 l)) in *.
    assert (HF : ∀ h, h ∈ F → h ∈ dom (h_handlers σ0) ∧
                      _is_console_logging_handler σ0 h = false).
    { intros h [Hh Hn]%non_console_elem. split; [|done].
      by apply (handlers_of_wf σ0 l). }
    assert (HFσ : ∀ h, h ∈ F → _is_console_logging_handler σ h = false).
    { intros h [Hd Hn]%HF. unfold _is_console_logging_handler in *.
      destruct Hp as [Hp _]. by rewrite Hp. }
    assert (Htc : _is_console_logging_handler σ t = true).
    { unfold _is_console_logging_handler. rewrite Htl.
      apply expected_handler_console. }
    rewrite Hl, non_console_app, (non_console_id σ F HFσ).
    unfold non_console at 1. cbn. rewrite Htc. cbn. rewrite app_nil_r.
    repeat split; [done|].
    f_equal. unfold expected_handler at 1. rewrite Hl.
    rewrite first_console_app_none by by apply first_console_none.
    cbn. rewrite Htc, Htl.
    apply copy_console_settings_idem, expected_handler_kind.
Qed.

(** Redirecting another logger does not disturb logger [l]. *)
Lemma redirect_logger_other cls σ0 σ l a :
  a ≠ l → heap_wf σ → preserves σ0 σ →
  (h_loggers σ l = h_loggers σ0 l →
   h_loggers (redirect_logger cls σ a) l = h_loggers σ0 l) ∧
  (redirected cls σ0 σ l → redirected cls σ0 (redirect_logger cls σ a) l).
Proof.
  intros Hne Hwf Hp.
  destruct (redirect_logger_spec cls σ a Hwf) as (_ & Hh & Hls & Hlog & _ & _).
  split.
  - intros <-. by apply Hlog.
  - intros (t & Hl & Htn & Htl). exists t. repeat split; [|done|].
    + rewrite <- Hl. unfold handlers_of, list_at.
      rewrite Hlog by done. rewrite Hls; [done|]. by apply Hwf.
    + rewrite <- Htl. apply Hh. apply elem_of_dom. by rewrite Htl.
Qed.

(** The state of a logger along the loop of [redirect_enter]. *)
Lemma redirect_enter_inv cls σ0 loggers : ∀ σ l,
  heap_wf σ0 → heap_wf σ → preserves σ0 σ →
  h_loggers σ l = h_loggers σ0 l ∨ redirected cls σ0 σ l →
  let σ' := redirect_enter cls loggers σ in
  heap_wf σ' ∧ preserves σ0 σ' ∧
  (h_loggers σ' l = h_loggers σ0 l ∨ redirected cls σ0 σ' l) ∧
  (l ∈ loggers ∨ redirected cls σ0 σ l → redirected cls σ0 σ' l).
Proof.
  unfold redirect_enter.
  induction loggers as [|a loggers IH]; intros σ l Hwf0 Hwf Hp Hst; cbn.
  - split; [done|]. split; [done|]. split; [done|]. by intros [?%elem_of_nil|?].
  - destruct (redirect_logger_spec cls σ a Hwf) as (Hwf' & _).
    pose proof (preserves_trans _ _ _ Hp (redirect_logger_preserves cls σ a Hwf)) as Hp'.
    assert (Hst' : (h_loggers (redirect_logger cls σ a) l = h_loggers σ0 l ∨
                    redirected cls σ0 (redirect_logger cls σ a) l) ∧
                   (a = l ∨ redirected cls σ0 σ l →
                    redirected cls σ0 (redirect_logger cls σ a) l)).
    { destruct (decide (a = l)) as [->|Hne].
      - pose proof (redirect_logger_redirects cls σ0 σ l Hwf0 Hwf Hp Hst). by split; [right|].
      - destruct (redirect_logger_other cls σ0 σ l a Hne Hwf Hp) as [Hu Hr].
        split; [destruct Hst; [left|right]; auto|].
        intros [?|?]; [done | by apply Hr]. }
    destruct Hst' as [Hst1 Hst2].
    destruct (IH _ l Hwf0 Hwf' Hp' Hst1) as (Hwf'' & Hp'' & Hst'' & Hred).
    split; [done|]. split; [done|]. split; [done|].
    intros [Hin|Hr]; apply Hred.
    + apply elem_of_cons in Hin as [->|Hin]; [right; apply Hst2; by left | by left].
    + right. apply Hst2. by right.
Qed.
Lemma heap_wf_intro σ :
  (∀ l, h_loggers σ l ∈ dom (h_lists σ)) →
  map_Forall (λ _ hs, Forall (λ h, h ∈ dom (h_handlers σ)) hs) (h_lists σ) →
  heap_wf σ.
Proof.
  intros Hl Hh. split; [done|]. intros r hs h Hr Hin.
  specialize (Hh r hs Hr). cbn in Hh.
  rewrite Forall_forall in Hh. apply Hh. by apply list_elem_of_In.
Qed.

Lemma sample_heap_wf : heap_wf sample_heap.
Proof.
  apply heap_wf_intro.
  - intros [|[|l]]; apply elem_of_dom; eexists; vm_compute; reflexivity.
  - apply (bool_decide_unpack _). by vm_compute.
Qed.
Lemma redirect_exit_spec (f : nat → nat) loggers : ∀ σ,
  let σ' := redirect_exit loggers (f <$> loggers) σ in
  h_lists σ' = h_lists σ ∧ h_handlers σ' = h_handlers σ ∧
  (∀ l, l ∈ loggers → h_loggers σ' l = f l) ∧
  (∀ l, l ∉ loggers → h_loggers σ' l = h_loggers σ l).
Proof.
  unfold redirect_exit.
  induction loggers as [|a loggers IH]; intros σ; cbn.
  - split; [done|]. split; [done|]. split; [|done]. by intros l ?%elem_of_nil.
  - destruct (IH (bind_handlers a (f a) σ)) as (Hls & Hhs & Hin & Hout).
    split; [done|]. split; [done|]. split.
    + intros l Hl. destruct (decide (l ∈ loggers)) as [?|Hn]; [by apply Hin|].
      apply elem_of_cons in Hl as [->|?]; [|done].
      rewrite Hout by done. cbn. apply fn_lookup_insert.
    + intros l [Hne Hn]%not_elem_of_cons. rewrite Hout by done. cbn.
      by apply fn_lookup_insert_ne.
Qed.



(** C1: however the scope is left, by return or by an exception of the
    body, each redirected logger is bound again to the very list object it
    had at entry; and when the body did not mutate in place a list object
    that existed at entry, that list holds the same handler objects in the
    same order as at entry. *)
Theorem logging_redirect_restores {X} (loggers : option (list nat)) cls
    (body : heap → outcome X * heap) σ l :
  l ∈ default_loggers loggers →
  let σ1 := redirect_enter cls (default_loggers loggers) σ in
  let res := logging_redirect_tqdm loggers cls body σ in
  res.1 = (body σ1).1 ∧
  h_loggers res.2 l = h_loggers σ l ∧
  (heap_wf σ →
   (∀ r, r ∈ dom (h_lists σ) → h_lists (body σ1).2 !! r = h_lists σ1 !! r) →
   handlers_of res.2 l = handlers_of σ l).
Proof.
  intros Hl σ1 res.
  assert (Hres : res = ((body σ1).1,
            redirect_exit (default_loggers loggers)
              (h_loggers σ <$> default_loggers loggers) (body σ1).2)).
  { subst res. unfold logging_redirect_tqdm, original_handlers_list. fold σ1.
    by destruct (body σ1) as [[x|e] σ2]. }
  rewrite Hres. cbn [fst snd].
  destruct (redirect_exit_spec (h_loggers σ) (default_loggers loggers) (body σ1).2)
    as (Hls & _ & Hin & _).
  split; [done|]. split; [by apply Hin|].
  intros Hwf Hframe.
  destruct (redirect_enter_inv cls σ (default_loggers loggers) σ l Hwf Hwf
              (preserves_refl σ) (or_introl eq_refl)) as (_ & [_ Hp] & _ & _).
  fold σ1 in Hp.
  unfold handlers_of, list_at. rewrite Hin by done. rewrite Hls.
  rewrite Hframe, Hp; [done| |]; apply Hwf.
Qed.

Lemma logging_redirect_restores_witness :
  (logging_redirect_tqdm (Some [0; 0; 1]%nat) (UserClass 5) sample_body sample_heap).1
    = Raised ValueError ∧
  h_loggers (logging_redirect_tqdm (Some [0; 0; 1]%nat) (UserClass 5)
               sample_body sample_heap).2 0%nat = 0%nat ∧
  handlers_of (logging_redirect_tqdm (Some [0; 0; 1]%nat) (UserClass 5)
                 sample_body sample_heap).2 0%nat = [0; 1; 2]%nat.
Proof.
  destruct (logging_redirect_restores (Some [0; 0; 1]%nat) (UserClass 5)
              sample_body sample_heap 0%nat)
    as (Hout & Href & Hcontents).
  - cbn. apply list_elem_of_here.
  - split; [exact Hout|]. split; [exact Href|].
    apply Hcontents; [exact sample_heap_wf|].
    apply (bool_decide_unpack (set_Forall _ (dom (h_lists sample_heap)))).
    by vm_compute.
Defined.

(** C8: [emit] formats the record, hands the text to the class's [write]
    with the handler's stream and flushes.  When one of the three raises
    [KeyboardInterrupt] or [SystemExit], that exception is raised at once
    and [handleError] is not called.  Any other failure of the three is
    passed to [handleError] and not raised: [emit] ends as [handleError]
    ends, so it returns whenever [handleError] returns. *)
Theorem emit_routes_failures env cls s f lv record :
  let self := Handler (TqdmLoggingHandler cls) s f lv in
  let r := emit env self record in
  (∀ msg, format_result env record = Returned msg →
     write_result env cls msg s = Returned tt →
     flush_result env s = Returned tt →
     r = (Returned tt, [EvFormat record; EvWrite cls msg s; EvFlush s])) ∧
  (∀ e, e = KeyboardInterrupt ∨ e = SystemExit →
     (format_result env record = Raised e → r = (Raised e, [EvFormat record])) ∧
     (∀ msg, format_result env record = Returned msg →
        write_result env cls msg s = Raised e →
        r = (Raised e, [EvFormat record; EvWrite cls msg s])) ∧
     (∀ msg, format_result env record = Returned msg →
        write_result env cls msg s = Returned tt →
        flush_result env s = Raised e →
        r = (Raised e, [EvFormat record; EvWrite cls msg s; EvFlush s]))) ∧
  (∀ e, e ≠ KeyboardInterrupt → e ≠ SystemExit →
     (format_result env record = Raised e →
        r = (handle_error_result env record,
             [EvFormat record; EvHandleError record])) ∧
     (∀ msg, format_result env record = Returned msg →
        write_result env cls msg s = Raised e →
        r = (handle_error_result env record,
             [EvFormat record; EvWrite cls msg s; EvHandleError record])) ∧
     (∀ msg, format_result env record = Returned msg →
        write_result env cls msg s = Returned tt →
        flush_result env s = Raised e →
        r = (handle_error_result env record,
             [EvFormat record; EvWrite cls msg s; EvFlush s;
              EvHandleError record]))) ∧
  (∀ e, r.1 = Raised e →
     ((e = KeyboardInterrupt ∨ e = SystemExit) ∧
      count_events is_handle_error r.2 = 0%nat) ∨
     handle_error_result env record = Raised e) ∧
  (handle_error_result env record = Returned tt →
   ∀ e, r.1 = Raised e → e = KeyboardInterrupt ∨ e = SystemExit).
Proof.
  intros self r. subst r self. unfold emit, tqdm_class_attr. cbn.
  split; [|split; [|split; [|split]]].
  - intros msg -> -> ->. done.
  - intros e He. split; [|split].
    + intros ->. by destruct He as [->| ->].
    + intros msg -> ->. by destruct He as [->| ->].
    + intros msg -> -> ->. by destruct He as [->| ->].
  - intros e Hk Hs. split; [|split].
    + intros ->. cbn. destruct e; try (by destruct Hk); try (by destruct Hs); cbn;
        by destruct (handle_error_result env record).
    + intros msg -> ->. cbn.
      destruct e; try (by destruct Hk); try (by destruct Hs); cbn;
        by destruct (handle_error_result env record).
    + intros msg -> -> ->. cbn.
      destruct e; try (by destruct Hk); try (by destruct Hs); cbn;
        by destruct (handle_error_result env record).
  - destruct (format_result env record) as [msg|e1]; cbn.
    + destruct (write_result env cls msg s) as [[]|e2]; cbn.
      * destruct (flush_result env s) as [[]|e3]; cbn; [done|].
        destruct e3; cbn; intros e He;
          first [by right | injection He as <-; left; split; [by auto|done]].
      * destruct e2; cbn; intros e He;
          first [by right | injection He as <-; left; split; [by auto|done]].
    + destruct e1; cbn; intros e He;
        first [by right | injection He as <-; left; split; [by auto|done]].
  - intros Hh.
    destruct (format_result env record) as [msg|e1]; cbn.
    + destruct (write_result env cls msg s) as [[]|e2]; cbn.
      * destruct (flush_result env s) as [[]|e3]; cbn; [done|].
        destruct e3; cbn; rewrite ?Hh; cbn; intros e [= <-]; auto.
      * destruct e2; cbn; rewrite ?Hh; cbn; intros e [= <-]; auto.
    + destruct e1; cbn; rewrite ?Hh; cbn; intros e [= <-]; auto.
Qed.

(** A [SystemExit] raised by [write] leaves [emit] as it is, and
    [handleError] is not asked, whatever it would have done. *)
Lemma emit_routes_failures_witness :
  emit (EmitEnv (λ _, Returned "text"%string) (λ _ _ _, Raised SystemExit)
                (λ _, Returned tt) (λ _, Raised ValueError))
       (Handler (TqdmLoggingHandler StdTldm) Stdout None 20) 3%nat =
  (Raised SystemExit, [EvFormat 3%nat; EvWrite StdTldm "text" Stdout]).
Proof.
  destruct (emit_routes_failures
              (EmitEnv (λ _, Returned "text"%string) (λ _ _ _, Raised SystemExit)
                       (λ _, Returned tt) (λ _, Raised ValueError))
              StdTldm Stdout None 20 3%nat) as (_ & Hint & _).
  destruct (Hint SystemExit (or_intror eq_refl)) as (_ & Hwrite & _).
  exact (Hwrite "text"%string eq_refl eq_refl).
Defined.

(** A [ValueError] of [write] goes to [handleError]. *)
Example emit_write_failure :
  emit (EmitEnv (λ _, Returned "text"%string) (λ _ _ _, Raised ValueError)
                (λ _, Returned tt) (λ _, Returned tt))
       (Handler (TqdmLoggingHandler StdTldm) Stdout None 20) 3%nat =
  (Returned tt, [EvFormat 3%nat; EvWrite StdTldm "text" Stdout; EvHandleError 3%nat]).
Proof. reflexivity. Qed.

End LoggingFacts.

(** ** The environment selector *)

Section SelectorFacts.
Import Selector.

Local Ltac find_disjunct :=
  solve [ repeat split; eauto | left; find_disjunct | right; find_disjunct ].

Local Ltac selector_leaf :=
  cbn; unfold base_exception_only; repeat split; intros;
  repeat first
    [ progress destruct_or?
    | progress destruct_and?
    | match goal with H : ∃ _, _ |- _ => destruct H end
    | progress simplify_eq/= ];
  try done; try lia; try (by exfalso; eauto); try find_disjunct.

(** C9, as amended: [_get_auto_tldm] raises an exception exactly when a
    probing step that is reached raises an interruption (a class deriving
    from [BaseException] only), and then raises that one.  Every other
    failure of a reached step, a session that is no notebook kernel, and a
    kernel whose widget is missing all end in the standard class; the
    notebook class is returned exactly when the hook, the kernel test, the
    three imports and the import of the notebook class all succeed.
    [warn] is called at most once, and exactly when a kernel was detected,
    the two names were imported and the widget is missing. *)
Theorem _get_auto_tldm_falls_back env :
  let r := _get_auto_tldm env in
  let kernel :=
    env_get_ipython env = Returned tt ∧ env_kernel_app env = Returned true in
  let imported :=
    kernel ∧ env_WARN_NOIPYW env = Returned tt ∧ env_TldmWarning env = Returned tt in
  let no_widget :=
    env_IProgress env = Returned None ∨ env_IProgress env = Raised ImportError in
  let widget := ∃ w, env_IProgress env = Returned (Some w) in
  let step_raises (e : exn) :=
    env_get_ipython env = Raised e ∨
    (env_get_ipython env = Returned tt ∧ env_kernel_app env = Raised e) ∨
    (kernel ∧ env_WARN_NOIPYW env = Raised e) ∨
    (kernel ∧ env_WARN_NOIPYW env = Returned tt ∧ env_TldmWarning env = Raised e) ∨
    (imported ∧ env_IProgress env = Raised e ∧ e ≠ ImportError) ∨
    (imported ∧ no_widget ∧ env_warn env = Raised e) ∨
    (imported ∧ widget ∧ env_notebook_tldm env = Raised e) in
  (∀ e, r.1 = Raised e ↔ base_exception_only e ∧ step_raises e) ∧
  (∀ e, ¬ base_exception_only e → step_raises e → r.1 = Returned StdTldm) ∧
  (env_get_ipython env = Returned tt → env_kernel_app env = Returned false →
     r = (Returned StdTldm, [EvSysModules; EvGetIPython])) ∧
  (imported → no_widget → env_warn env = Returned tt → r.1 = Returned StdTldm) ∧
  (∀ c, imported → widget → env_notebook_tldm env = Returned c → r.1 = Returned c) ∧
  (∀ c, r.1 = Returned c →
     c = StdTldm ∨ (imported ∧ widget ∧ env_notebook_tldm env = Returned c)) ∧
  (count_events is_warn r.2 ≤ 1)%nat ∧
  (count_events is_warn r.2 = 1%nat ↔ imported ∧ no_widget).
Proof.
  destruct env as [gi ka wn tw ip wa nt]. unfold _get_auto_tldm.
  cbn [env_get_ipython env_kernel_app env_WARN_NOIPYW env_TldmWarning
       env_IProgress env_warn env_notebook_tldm].
  destruct gi as [[]|e]; [|destruct e; selector_leaf].
  destruct ka as [[|]|e]; [| selector_leaf |destruct e; selector_leaf].
  destruct wn as [[]|e]; [|destruct e; selector_leaf].
  destruct tw as [[]|e]; [|destruct e; selector_leaf].
  destruct ip as [[w|]|e].
  - destruct nt as [c|e]; [selector_leaf|destruct e; selector_leaf].
  - destruct wa as [[]|e]; [selector_leaf|destruct e; selector_leaf].
  - destruct e; (destruct wa as [[]|e']; [|destruct e']); selector_leaf.
Qed.

Lemma _get_auto_tldm_falls_back_witness :
  (_get_auto_tldm interrupted_env).1 = Raised KeyboardInterrupt ∧
  (_get_auto_tldm no_widgets_env).1 = Returned StdTldm ∧
  (_get_auto_tldm console_env).1 = Returned StdTldm.
Proof.
  split; [|split].
  - destruct (_get_auto_tldm_falls_back interrupted_env) as (Hraise & _).
    apply Hraise. split; [by left|]. right. right. left. by repeat split.
  - destruct (_get_auto_tldm_falls_back no_widgets_env) as (_ & _ & _ & Hwarn & _).
    apply Hwarn; [by repeat split|by right|done].
  - destruct (_get_auto_tldm_falls_back console_env) as (_ & Hfall & _).
    apply (Hfall KeyError); [|by left].
    intros [?|[?|?]]; discriminate.
Defined.

(** C9 as stated fails: an interrupt that arrives while the notebook
    module is imported is not caught by [except Exception] and leaves
    [_get_auto_tldm] as an exception. *)
Lemma _get_auto_tldm_interrupted :
  (_get_auto_tldm interrupted_env).1 = Raised KeyboardInterrupt ∧
  ¬ (∀ env, ∃ c, (_get_auto_tldm env).1 = Returned c).
Proof.
  split; [reflexivity|].
  intros Hnever. destruct (Hnever interrupted_env) as [c Hc]. discriminate Hc.
Qed.

(** Without the widget package the selector warns once and falls back. *)
Example _get_auto_tldm_no_widgets :
  _get_auto_tldm no_widgets_env =
  (Returned StdTldm,
   [EvSysModules; EvGetIPython; EvImport "WARN_NOIPYW"; EvImport "TldmWarning";
    EvImport "IProgress"; EvWarn]).
Proof. reflexivity. Qed.

End SelectorFacts.

(** ** The iteration adapters *)

Section AliasesFacts.
Import Aliases.

Variable iterate : class_ref → list pyval → list pyval.
Variable m : aliases_module.
Context `{!float_arith}.

Implicit Types (kwargs : gmap string pyval) (c : class_ref).

(** [enumerate]: the i-th pair is [(start + i, items[i])]. *)
Lemma py_enumerate_length items start :
  length (py_enumerate items start) = length items.
Proof. revert start. induction items as [|x items IH]; intros start; cbn; auto. Qed.

Lemma py_enumerate_lookup items : ∀ start (i : nat) x,
  items !! i = Some x →
  py_enumerate items start !! i = Some (VTuple [VInt (start + Z.of_nat i); x]).
Proof.
  induction items as [|y items IH]; intros start i x; [done|].
  destruct i as [|i]; cbn.
  - intros [= ->]. by rewrite Z.add_0_r.
  - intros Hi. rewrite (IH _ _ _ Hi).
    by replace (start + 1 + Z.of_nat i) with (start + Z.of_nat (S i)) by lia.
Qed.

(** [zip] of two iterables pairs them up to the shorter one. *)
Lemma py_zip_two (A B : list pyval) :
  py_zip A [B] = (λ p, [p.1; p.2]) <$> zip A B.
Proof.
  revert B. induction A as [|a A IH]; intros B; [done|].
  destruct B as [|b B]; [done|]. cbn. by rewrite IH.
Qed.

Lemma length_zip_min {X Y} (A : list X) (B : list Y) :
  length (zip A B) = (length A `min` length B)%nat.
Proof.
  revert B. induction A as [|a A IH]; intros [|b B]; cbn; auto.
Qed.

(** A call that reaches the constructor with class [c]. *)
Lemma tenumerate_run iterable start total tldm_class kwargs c :
  select_class m tldm_class = VClass c →
  tenumerate iterate m iterable start total tldm_class kwargs =
  (Returned (py_enumerate (iterate c (it_items iterable)) start),
   [EvNew c (Some (it_items iterable)) (<["total" := total]> kwargs)]).
Proof. intros Hc. unfold tenumerate. rewrite Hc. reflexivity. Qed.

Lemma tzip_tuples_run iter1 iter2plus kwargs c :
  select_class m (default VNone (kwargs !! "tldm_class")) = VClass c →
  tzip_tuples iterate m iter1 iter2plus kwargs =
  (Returned (py_zip (iterate c (it_items iter1)) (it_items <$> iter2plus)),
   [EvNew c (Some (it_items iter1)) (delete "tldm_class" kwargs)]).
Proof. intros Hc. unfold tzip_tuples, pop. rewrite Hc. reflexivity. Qed.

(** C4: for every sequence and every integer start, whatever class is
    selected, [tenumerate] yields the pairs of [enumerate]: as many as
    there are items, the i-th being [(start + i, S[i])]. *)
Theorem tenumerate_is_enumerate S start total tldm_class kwargs c :
  (∀ items, iterate c items = items) →
  select_class m tldm_class = VClass c →
  let r := tenumerate iterate m S start total tldm_class kwargs in
  r.1 = Returned (py_enumerate (it_items S) start) ∧
  (∀ pairs, r.1 = Returned pairs →
     length pairs = length (it_items S) ∧
     ∀ (i : nat) x, it_items S !! i = Some x →
       pairs !! i = Some (VTuple [VInt (start + Z.of_nat i); x])).
Proof.
  intros Hid Hc r. subst r. rewrite (tenumerate_run _ _ _ _ _ c Hc), Hid. cbn.
  split; [done|]. intros pairs [= <-]. split.
  - apply py_enumerate_length.
  - intros i x. apply py_enumerate_lookup.
Qed.

(** C5: [tzip(A, B)] yields the tuples of [zip(A, B)], as many as the
    shorter input has items, and does not raise; the class is constructed
    once, around the first iterable. *)
Theorem tzip_stops_at_shortest A B kwargs c :
  (∀ items, iterate c items = items) →
  select_class m (default VNone (kwargs !! "tldm_class")) = VClass c →
  let r := tzip iterate m A [B] kwargs in
  r.1 = Returned ((λ p, VTuple [p.1; p.2]) <$> zip (it_items A) (it_items B)) ∧
  (∀ tuples, r.1 = Returned tuples →
     length tuples = (length (it_items A) `min` length (it_items B))%nat) ∧
  r.2 = [EvNew c (Some (it_items A)) (delete "tldm_class" kwargs)].
Proof.
  intros Hid Hc r. subst r. unfold tzip.
  rewrite (tzip_tuples_run _ _ _ c Hc), Hid. cbn.
  rewrite py_zip_two, <- list_fmap_compose.
  split; [done|]. split; [|done].
  intros tuples [= <-]. by rewrite length_fmap, length_zip_min.
Qed.


(** *** [tproduct] *)

(** The loop of the generator from its suspension point: every further
    tuple costs one [update] first. *)
Lemma pull_suspended : ∀ (n : nat) rest,
  (n ≤ length rest)%nat →
  pull m n (TPSuspended rest) =
  (take n rest, replicate n EvUpdate, TPSuspended (drop n rest)).
Proof.
  induction n as [|n IH]; intros rest Hn; [done|].
  destruct rest as [|val rest]; [cbn in Hn; lia|].
  cbn in Hn. cbn. rewrite IH by lia. reflexivity.
Qed.

Lemma consume_suspended : ∀ rest (fuel : nat),
  (length rest < fuel)%nat →
  consume m fuel (TPSuspended rest) =
  Some (Returned rest, replicate (S (length rest)) EvUpdate ++ [EvExit]).
Proof.
  induction rest as [|val rest IH]; intros fuel Hf.
  - destruct fuel as [|fuel]; [lia|]. reflexivity.
  - destruct fuel as [|fuel]; [cbn in Hf; lia|]. cbn in Hf.
    cbn. rewrite IH by lia. reflexivity.
Qed.

(** The first [next()] when the prologue completes, the class can be
    called and [itertools.product] accepts its arguments. *)
Lemma tproduct_first_next iterables kwargs cls c kw repeat P :
  tproduct_setup m iterables kwargs = Returned (cls, kw, repeat) →
  callable_class cls = Some c →
  itertools_product iterables repeat = Returned P →
  tproduct_next m (TPNew iterables kwargs) =
  match P with
  | [] => ((Returned None, [EvNew c None kw; EvEnter; EvExit]), TPFinished)
  | val :: rest => ((Returned (Some val), [EvNew c None kw; EvEnter]), TPSuspended rest)
  end.
Proof.
  intros Hs Hc HP. unfold tproduct_next. rewrite Hs.
  unfold construct, call. rewrite Hc, HP.
  by destruct P.
Qed.


Lemma count_events_app p t t' :
  count_events p (t ++ t') = (count_events p t + count_events p t')%nat.
Proof. unfold count_events. by rewrite List.filter_app, length_app. Qed.

Lemma count_updates_replicate (n : nat) :
  count_events is_update (replicate n EvUpdate) = n.
Proof. induction n as [|n IH]; [done|]. unfold count_events in *. cbn. by rewrite IH. Qed.


(** A consumer that takes [n >= 1] of the tuples. *)
Lemma pull_new iterables kwargs cls c kw repeat P (n : nat) :
  tproduct_setup m iterables kwargs = Returned (cls, kw, repeat) →
  callable_class cls = Some c →
  itertools_product iterables repeat = Returned P →
  (1 ≤ n ≤ length P)%nat →
  pull m n (TPNew iterables kwargs) =
  (take n P, [EvNew c None kw; EvEnter] ++ replicate (n - 1) EvUpdate,
   TPSuspended (drop n P)).
Proof.
  intros Hs Hc HP [Hn1 Hn2].
  destruct n as [|n]; [lia|]. cbn [pull].
  rewrite (tproduct_first_next _ _ _ _ _ _ _ Hs Hc HP).
  destruct P as [|val rest]; [cbn in Hn2; lia|]. cbn in Hn2.
  rewrite pull_suspended by lia. cbn. by rewrite Nat.sub_0_r.
Qed.

Lemma consume_new iterables kwargs cls c kw repeat P (fuel : nat) :
  tproduct_setup m iterables kwargs = Returned (cls, kw, repeat) →
  callable_class cls = Some c →
  itertools_product iterables repeat = Returned P →
  (length P < fuel)%nat →
  consume m fuel (TPNew iterables kwargs) =
  Some (Returned P,
        [EvNew c None kw; EvEnter] ++ replicate (length P) EvUpdate ++ [EvExit]).
Proof.
  intros Hs Hc HP Hf.
  destruct fuel as [|fuel]; [lia|]. cbn [consume].
  rewrite (tproduct_first_next _ _ _ _ _ _ _ Hs Hc HP).
  destruct P as [|val rest]; [done|]. cbn in Hf.
  rewrite consume_suspended by lia. reflexivity.
Qed.


(** [tuple(obj)] works for every input whose length hint can be asked. *)
Lemma list_map_py_tuple_hints iterables lens :
  list_map length_hint iterables = Returned lens →
  list_map py_tuple iterables = Returned (it_items <$> iterables).
Proof.
  revert lens. induction iterables as [|it its IH]; intros lens; cbn; [done|].
  unfold py_tuple at 1. destruct (length_hint it); [|done].
  destruct (list_map length_hint its) as [ls|]; [|done].
  intros _. by rewrite (IH ls).
Qed.

(** A repeat count is accepted when the indices fit. *)
Lemma repeat_too_large_false (nargs : nat) (r : Z) :
  0 < r → Z.of_nat nargs * r ≤ maxsize `div` 8 → repeat_too_large nargs r = false.
Proof.
  intros Hr Hn. unfold repeat_too_large. apply bool_decide_eq_false_2.
  apply Z.le_ngt, Z.div_le_lower_bound; lia.
Qed.

(** [itertools.product] on inputs whose length hints can be asked, for a
    repeat count it accepts. *)
Lemma itertools_product_hints iterables lens (r : Z) :
  list_map length_hint iterables = Returned lens →
  0 ≤ r ≤ maxsize →
  Z.of_nat (length iterables) * r ≤ maxsize `div` 8 →
  itertools_product iterables (VInt r) =
  Returned (product (mjoin (replicate (Z.to_nat r) (it_items <$> iterables)))).
Proof.
  intros Hl Hr Hn. unfold itertools_product.
  rewrite bool_decide_eq_false_2 by lia.
  rewrite bool_decide_eq_false_2 by lia.
  case_bool_decide as H0; [by subst r|].
  rewrite repeat_too_large_false by lia.
  by rewrite (list_map_py_tuple_hints _ _ Hl).
Qed.

(** What [tuple(obj)] accepts, [length_hint] accepts. *)
Lemma list_map_py_tuple_inv iterables pools :
  list_map py_tuple iterables = Returned pools →
  ∃ lens, list_map length_hint iterables = Returned lens.
Proof.
  revert pools. induction iterables as [|it its IH]; intros pools; cbn; [by eauto|].
  unfold py_tuple at 1. destruct (length_hint it) as [n|]; [|done].
  destruct (list_map py_tuple its) as [ps|]; [|done].
  intros _. destruct (IH ps eq_refl) as [lens ->]. by eauto.
Qed.


(** C10: after [n >= 1] tuples were received the bar has seen [n - 1]
    updates; closing the generator adds none, one more [next()] adds the
    n-th, whether it yields again or ends the product. *)
Theorem tproduct_update_follows_yield iterables kwargs cls c kw repeat P (n : nat) :
  tproduct_setup m iterables kwargs = Returned (cls, kw, repeat) →
  callable_class cls = Some c →
  itertools_product iterables repeat = Returned P →
  (1 ≤ n ≤ length P)%nat →
  ∃ vals t st,
    pull m n (TPNew iterables kwargs) = (vals, t, st) ∧
    vals = take n P ∧
    length vals = n ∧
    count_events is_update t = (n - 1)%nat ∧
    count_events is_update (t ++ (tproduct_close st).1) = (n - 1)%nat ∧
    count_events is_update (t ++ (tproduct_next m st).1.2) = n.
Proof.
  intros Hs Hc HP Hn. do 3 eexists.
  split; [by apply (pull_new _ _ _ _ _ _ _ _ Hs Hc HP)|].
  split; [done|].
  split; [rewrite length_take; lia|].
  rewrite !count_events_app, count_updates_replicate.
  unfold count_events at 1 3 5. cbn [List.filter is_update length].
  split; [lia|]. split; [cbn; lia|].
  cbn [tproduct_next]. destruct (drop n P); cbn; lia.
Qed.

Lemma setdefault_lookup key value kwargs :
  setdefault key value kwargs !! key = Some (default value (kwargs !! key)).
Proof.
  unfold setdefault. destruct (kwargs !! key) eqn:E; [done|].
  by rewrite lookup_insert_eq.
Qed.

Lemma setdefault_lookup_ne key key' value kwargs :
  key ≠ key' → setdefault key value kwargs !! key' = kwargs !! key'.
Proof.
  intros Hne. unfold setdefault. destruct (kwargs !! key); [done|].
  by rewrite lookup_insert_ne.
Qed.

(** [total = 1; for i in lens: total *= i] is the product of [lens]. *)
Lemma foldl_mul_product (lens : list Z) (acc : Z) :
  foldl Z.mul acc lens = acc * foldr Z.mul 1 lens.
Proof.
  revert acc. induction lens as [|z lens IH]; intros acc; cbn; [lia|].
  rewrite IH. lia.
Qed.

(** The prologue when every length hint is an integer. *)
Lemma tproduct_setup_hints iterables kwargs lens (r : Z) :
  list_map length_hint iterables = Returned lens →
  default (VInt 1) (kwargs !! "repeat") = VInt r →
  0 ≤ r →
  tproduct_setup m iterables kwargs =
  Returned (select_class m (default VNone (kwargs !! "tldm_class")),
            setdefault "total" (VInt (foldr Z.mul 1 lens ^ r))
                       (delete "tldm_class" (delete "repeat" kwargs)),
            VInt r).
Proof.
  intros Hl Hrep Hr. unfold tproduct_setup, pop.
  rewrite Hrep, Hl, lookup_delete_ne by done. cbn.
  rewrite bool_decide_eq_true_2 by done.
  by rewrite foldl_mul_product, Z.mul_1_l.
Qed.

(** The prologue when a length hint is a [TypeError]. *)
Lemma tproduct_setup_no_hint iterables kwargs :
  list_map length_hint iterables = Raised TypeError →
  tproduct_setup m iterables kwargs =
  Returned (select_class m (default VNone (kwargs !! "tldm_class")),
            delete "tldm_class" (delete "repeat" kwargs),
            default (VInt 1) (kwargs !! "repeat")).
Proof.
  intros Hl. unfold tproduct_setup, pop.
  by rewrite Hl, lookup_delete_ne.
Qed.

(** The prologue completes whenever [itertools.product] accepts the
    iterables with a repeat count other than 0. *)
Lemma tproduct_setup_completes iterables kwargs (r : Z) P :
  default (VInt 1) (kwargs !! "repeat") = VInt r →
  r ≠ 0 →
  itertools_product iterables (VInt r) = Returned P →
  ∃ kw, tproduct_setup m iterables kwargs =
        Returned (select_class m (default VNone (kwargs !! "tldm_class")), kw, VInt r).
Proof.
  intros Hrep Hr0 HP. unfold itertools_product in HP.
  destruct (bool_decide (r < - maxsize - 1 ∨ maxsize < r)); [done|].
  case_bool_decide as Hneg; [done|].
  rewrite bool_decide_eq_false_2 in HP by done.
  destruct (repeat_too_large _ _); [done|].
  destruct (list_map py_tuple iterables) as [pools|] eqn:Hp; [|done].
  destruct (list_map_py_tuple_inv _ _ Hp) as [lens Hl].
  eexists. apply (tproduct_setup_hints _ _ lens r Hl Hrep). lia.
Qed.

(** Whatever the product does next, the constructor call comes first. *)
Lemma tproduct_next_constructs iterables kwargs cls c kw repeat :
  tproduct_setup m iterables kwargs = Returned (cls, kw, repeat) →
  callable_class cls = Some c →
  ∃ rest, (tproduct_next m (TPNew iterables kwargs)).1.2 = EvNew c None kw :: rest.
Proof.
  intros Hs Hc. unfold tproduct_next. rewrite Hs. unfold construct, call. rewrite Hc.
  destruct (itertools_product _ _) as [[|val it]|e]; cbn; eauto.
Qed.

(** The two branches of the prologue: when every input has an integer
    length hint, the constructor is called with [total] equal to the
    caller's value if there is one and to (product of the hints) ** repeat
    otherwise; when [length_hint] raises [TypeError] the adapter adds no
    [total].  The other keyword arguments are forwarded as they are. *)
Lemma tproduct_total iterables kwargs c (r : Z) :
  default (VInt 1) (kwargs !! "repeat") = VInt r →
  0 ≤ r →
  select_class m (default VNone (kwargs !! "tldm_class")) = VClass c →
  let ev := (tproduct_next m (TPNew iterables kwargs)).1.2 in
  (∀ lens, list_map length_hint iterables = Returned lens →
     ∃ kw rest, ev = EvNew c None kw :: rest ∧
       kw !! "total" =
         Some (default (VInt (foldr Z.mul 1 lens ^ r)) (kwargs !! "total")) ∧
       (∀ key, key ≠ "total" → key ≠ "repeat" → key ≠ "tldm_class" →
          kw !! key = kwargs !! key)) ∧
  (list_map length_hint iterables = Raised TypeError →
     ∃ kw rest, ev = EvNew c None kw :: rest ∧
       kw !! "total" = kwargs !! "total" ∧
       (∀ key, key ≠ "repeat" → key ≠ "tldm_class" → kw !! key = kwargs !! key)).
Proof.
  intros Hrep Hr Hc ev. subst ev. split.
  - intros lens Hl.
    pose proof (tproduct_setup_hints _ kwargs _ _ Hl Hrep Hr) as Hs. rewrite Hc in Hs.
    destruct (tproduct_next_constructs _ _ _ c _ _ Hs eq_refl) as [rest Hev].
    eexists _, rest. split; [exact Hev|]. split.
    + by rewrite setdefault_lookup, !lookup_delete_ne.
    + intros key H1 H2 H3.
      by rewrite setdefault_lookup_ne, !lookup_delete_ne.
  - intros Hl.
    pose proof (tproduct_setup_no_hint _ kwargs Hl) as Hs. rewrite Hc in Hs.
    destruct (tproduct_next_constructs _ _ _ c _ _ Hs eq_refl) as [rest Hev].
    eexists _, rest. split; [exact Hev|]. split.
    + by rewrite !lookup_delete_ne.
    + intros key H1 H2. by rewrite !lookup_delete_ne.
Qed.

(** *** Where the backend is selected *)

Lemma tzip_tuples_events iter1 iter2plus kwargs :
  count_events is_probe (tzip_tuples iterate m iter1 iter2plus kwargs).2 = 0%nat ∧
  ∀ c', c' ∈ constructed (tzip_tuples iterate m iter1 iter2plus kwargs).2 →
        callable_class (select_class m (default VNone (kwargs !! "tldm_class"))) = Some c'.
Proof.
  unfold tzip_tuples, pop, construct.
  destruct (callable_class (select_class m _)) as [c|]; cbn; split; try done.
  - by intros c' ->%list_elem_of_singleton.
  - by intros c' ?%elem_of_nil.
Qed.

Lemma bind_ret_events {X Y} (a : M X) (f : X → Y) :
  (bind a (λ x, ret (f x))).2 = a.2.
Proof. destruct a as [[x|e] t]; cbn; [by rewrite app_nil_r | done]. Qed.

Lemma tproduct_next_events st :
  count_events is_probe (tproduct_next m st).1.2 = 0%nat ∧
  ∀ c', c' ∈ constructed (tproduct_next m st).1.2 →
        ∃ iterables kwargs, st = TPNew iterables kwargs ∧
          callable_class (select_class m (default VNone (kwargs !! "tldm_class"))) = Some c'.
Proof.
  destruct st as [iterables kwargs|rest|]; cbn [tproduct_next].
  - unfold tproduct_setup, pop. rewrite lookup_delete_ne by done.
    set (cls := select_class m _).
    assert (Hfin : ∀ kw rep,
      let x := match construct cls None kw with
               | (Raised e, t) => ((Raised e, t), TPFinished)
               | (Returned _, t) =>
                   match itertools_product iterables rep with
                   | Raised e => ((Raised e, t ++ [EvEnter; EvExit]), TPFinished)
                   | Returned it =>
                       let '((r, t'), st') := tproduct_loop it in
                       ((r, t ++ [EvEnter] ++ t'), st')
                   end
               end in
      count_events is_probe x.1.2 = 0%nat ∧
      ∀ c', c' ∈ constructed x.1.2 → callable_class cls = Some c').
    { intros kw rep. unfold construct.
      destruct (callable_class cls) as [c|]; cbn;
        [|split; [done|by intros c' ?%elem_of_nil]].
      destruct (itertools_product _ _) as [[|val it]|e]; cbn;
        (split; [done|by intros c' ->%list_elem_of_singleton]). }
    destruct (list_map length_hint iterables) as [lens|e].
    + destruct (py_pow _ _) as [total|e].
      * destruct (Hfin (setdefault "total" total (delete "tldm_class" (delete "repeat" kwargs)))
                       (default (VInt 1) (kwargs !! "repeat"))) as [H1 H2].
        split; [exact H1|]. intros c' Hc'. eauto.
      * split; [done|]. by intros c' ?%elem_of_nil.
    + destruct (Hfin (delete "tldm_class" (delete "repeat" kwargs))
                     (default (VInt 1) (kwargs !! "repeat"))) as [H1 H2].
      destruct e; try (split; [done|by intros c' ?%elem_of_nil]).
      split; [exact H1|]. intros c' Hc'. eauto.
  - destruct rest; cbn; (split; [done|by intros c' ?%elem_of_nil]).
  - split; [done|]. by intros c' ?%elem_of_nil.
Qed.

(** C2, as amended: the backend is selected once, by the module body of
    [tldm.aliases] at import; no adapter call runs the selector.  A call
    constructs the explicit class when one is supplied and the class bound
    at import otherwise; [trange] always constructs the latter. *)
Theorem selection_happens_at_import env :
  (import_aliases env).2 = (Selector._get_auto_tldm env).2 ∧
  (∀ m', (import_aliases env).1 = Returned m' →
         (Selector._get_auto_tldm env).1 = Returned (auto_tldm m')) ∧
  (∀ S start total tldm_class kwargs,
     let t := (tenumerate iterate m S start total tldm_class kwargs).2 in
     count_events is_probe t = 0%nat ∧
     (∀ c, tldm_class = VClass c → constructed t = [c]) ∧
     (tldm_class = VNone → constructed t = [auto_tldm m])) ∧
  (∀ iter1 iter2plus kwargs,
     let t := (tzip iterate m iter1 iter2plus kwargs).2 in
     count_events is_probe t = 0%nat ∧
     (∀ c, kwargs !! "tldm_class" = Some (VClass c) → constructed t = [c]) ∧
     (kwargs !! "tldm_class" = None → constructed t = [auto_tldm m])) ∧
  (∀ function iter1 iter2plus kwargs,
     let t := (tmap iterate m function (iter1 :: iter2plus) kwargs).2 in
     count_events is_probe t = 0%nat ∧
     (∀ c, kwargs !! "tldm_class" = Some (VClass c) → constructed t = [c]) ∧
     (kwargs !! "tldm_class" = None → constructed t = [auto_tldm m])) ∧
  (∀ st,
     let t := (tproduct_next m st).1.2 in
     count_events is_probe t = 0%nat ∧
     (∀ iterables kwargs c c', st = TPNew iterables kwargs →
        kwargs !! "tldm_class" = Some (VClass c) → c' ∈ constructed t → c' = c) ∧
     (∀ iterables kwargs c', st = TPNew iterables kwargs →
        kwargs !! "tldm_class" = None → c' ∈ constructed t → c' = auto_tldm m)) ∧
  (∀ args kwargs,
     let t := (trange iterate m args kwargs).2 in
     count_events is_probe t = 0%nat ∧
     (∀ c', c' ∈ constructed t → c' = auto_tldm m)).
Proof.
  split; [|split; [|split; [|split; [|split; [|split]]]]].
  - unfold import_aliases. apply bind_ret_events.
  - unfold import_aliases.
    destruct (Selector._get_auto_tldm env) as [[c|e] t]; cbn; [|done].
    by intros m' [= <-].
  - intros S start total tldm_class kwargs t. subst t. split; [|split].
    + unfold tenumerate, construct.
      by destruct (callable_class (select_class m tldm_class)).
    + intros c ->. by rewrite (tenumerate_run _ _ _ (VClass c) _ c eq_refl).
    + intros ->. by rewrite (tenumerate_run _ _ _ VNone _ (auto_tldm m) eq_refl).
  - intros iter1 iter2plus kwargs t. subst t. unfold tzip.
    rewrite bind_ret_events.
    split; [apply tzip_tuples_events|]. split.
    + intros c Hc. rewrite (tzip_tuples_run _ _ _ c); [done|]. by rewrite Hc.
    + intros Hc. rewrite (tzip_tuples_run _ _ _ (auto_tldm m)); [done|]. by rewrite Hc.
  - intros function iter1 iter2plus kwargs t. subst t. unfold tmap.
    rewrite bind_ret_events.
    split; [apply tzip_tuples_events|]. split.
    + intros c Hc. rewrite (tzip_tuples_run _ _ _ c); [done|]. by rewrite Hc.
    + intros Hc. rewrite (tzip_tuples_run _ _ _ (auto_tldm m)); [done|]. by rewrite Hc.
  - intros st t. subst t.
    destruct (tproduct_next_events st) as [Hp Hc]. split; [exact Hp|]. split.
    + intros iterables kwargs c c' -> Hk Hin.
      destruct (Hc c' Hin) as (? & ? & [= <- <-] & Hsel).
      rewrite Hk in Hsel. by injection Hsel.
    + intros iterables kwargs c' -> Hk Hin.
      destruct (Hc c' Hin) as (? & ? & [= <- <-] & Hsel).
      rewrite Hk in Hsel. by injection Hsel.
  - intros args kwargs t. subst t. unfold trange, construct.
    destruct (py_range args) as [items|e]; cbn; split; try done.
    + by intros c' ->%list_elem_of_singleton.
    + by intros c' ?%elem_of_nil.
Qed.
End AliasesFacts.

(** ** Concrete runs *)

Section AliasesRuns.
Import Aliases.

#[local] Existing Instance sample_float_arith.

Lemma MockTldm_iter_id items : MockTldm_iter items = items.
Proof. by destruct items. Qed.

Lemma tenumerate_is_enumerate_witness :
  (tenumerate mock_iterate sample_module (py_list [VInt 7; VInt 8]) (-1) VNone
              (VClass (UserClass 0)) kw_none).1 =
  Returned [VTuple [VInt (-1); VInt 7]; VTuple [VInt 0; VInt 8]].
Proof.
  apply (tenumerate_is_enumerate mock_iterate sample_module
           (py_list [VInt 7; VInt 8]) (-1) VNone (VClass (UserClass 0)) kw_none (UserClass 0)).
  - exact MockTldm_iter_id.
  - reflexivity.
Defined.

Lemma tzip_stops_at_shortest_witness :
  (tzip mock_iterate sample_module (py_list [VInt 1; VInt 2; VInt 3])
        [py_generator [VInt 7]] kw_none).1 =
  Returned [VTuple [VInt 1; VInt 7]].
Proof.
  apply (tzip_stops_at_shortest mock_iterate sample_module
           (py_list [VInt 1; VInt 2; VInt 3]) (py_generator [VInt 7]) kw_none StdTldm).
  - exact MockTldm_iter_id.
  - reflexivity.
Defined.

Lemma tproduct_total_witness :
  ∃ kw rest,
    (tproduct_next sample_module
       (TPNew [list_12; list_34]
              kw_repeat_2)).1.2 = EvNew StdTldm None kw :: rest ∧
    kw !! "total" = Some (VInt 16).
Proof.
  destruct (tproduct_total sample_module
              [list_12; list_34]
              kw_repeat_2 StdTldm 2
              ltac:(vm_compute; reflexivity) ltac:(lia) ltac:(vm_compute; reflexivity))
    as [Hhints _].
  destruct (Hhints [2; 2] ltac:(vm_compute; reflexivity)) as (kw & rest & Hev & Htotal & _).
  exists kw, rest. split; [exact Hev | exact Htotal].
Defined.


(** Three of the four tuples taken: two updates so far. *)
Lemma tproduct_update_follows_yield_witness :
  ∃ vals t st,
    pull sample_module 3
         (TPNew [list_12; list_34] kw_none) = (vals, t, st) ∧
    vals = [[VInt 1; VInt 3]; [VInt 1; VInt 4]; [VInt 2; VInt 3]] ∧
    length vals = 3%nat ∧
    count_events is_update t = 2%nat ∧
    count_events is_update (t ++ (tproduct_close st).1) = 2%nat ∧
    count_events is_update (t ++ (tproduct_next sample_module st).1.2) = 3%nat.
Proof.
  apply (tproduct_update_follows_yield sample_module
           [list_12; list_34] kw_none
           (VClass StdTldm) StdTldm kw_total_4 (VInt 1)
           [[VInt 1; VInt 3]; [VInt 1; VInt 4]; [VInt 2; VInt 3]; [VInt 2; VInt 4]]
           3 ltac:(vm_compute; reflexivity) ltac:(reflexivity)
           ltac:(vm_compute; reflexivity));
    vm_compute; lia.
Defined.

Lemma selection_happens_at_import_witness :
  (import_aliases Selector.no_widgets_env).2 =
  (Selector._get_auto_tldm Selector.no_widgets_env).2 ∧
  constructed (tzip mock_iterate sample_module (py_list [VInt 1])
                    [py_list [VInt 2]] kw_mock_class).2
  = [UserClass 0].
Proof.
  destruct (selection_happens_at_import mock_iterate sample_module
              Selector.no_widgets_env) as (Himp & _ & _ & Hzip & _).
  split; [exact Himp|].
  destruct (Hzip (py_list [VInt 1]) [py_list [VInt 2]]
                 kw_mock_class)
    as (_ & Hexp & _).
  exact (Hexp (UserClass 0) ltac:(vm_compute; reflexivity)).
Defined.

(** C2 as stated fails: the selector runs when the module is imported, so
    a session whose only adapter call names its class has probed the
    notebook environment, and warned, before the call. *)
Lemma explicit_class_session_probes :
  explicit_class_session.1 =
    Returned [VTuple [VInt 0; VInt 1]; VTuple [VInt 1; VInt 2]] ∧
  constructed explicit_class_session.2 = [UserClass 0] ∧
  count_events is_probe explicit_class_session.2 = 6%nat ∧
  count_events is_warn explicit_class_session.2 = 1%nat ∧
  count_events is_probe (import_aliases Selector.no_widgets_env).2 = 6%nat.
Proof. repeat split; reflexivity. Qed.

(** C3: the claim fails for an input whose length is unavailable.  A
    generator has neither a length nor a hint; [length_hint] then returns
    its default 0 instead of raising, so the branch that leaves [total]
    out is not taken: the constructor receives [total = 0], and the
    generator goes on to yield its tuples and to update the bar once for
    each.  With a list beside the generator the total is 0 as well. *)
Theorem tproduct_generator_total :
  length_hint (py_generator [VInt 1; VInt 2]) = Returned 0 ∧
  (∃ kw, consume sample_module 3 (TPNew [py_generator [VInt 1; VInt 2]] kw_none)
         = Some (Returned [[VInt 1]; [VInt 2]],
                 [EvNew StdTldm None kw; EvEnter; EvUpdate; EvUpdate; EvExit]) ∧
         kw !! "total" = Some (VInt 0)) ∧
  (∃ kw rest, (tproduct_next sample_module
                 (TPNew [list_12; py_generator [VInt 3; VInt 4]] kw_none)).1
              = (Returned (Some [VInt 1; VInt 3]), EvNew StdTldm None kw :: rest) ∧
              kw !! "total" = Some (VInt 0)).
Proof.
  split; [reflexivity|]. split.
  - eexists. split; reflexivity.
  - do 2 eexists. split; reflexivity.
Qed.

(** [trange(3)] yields 0, 1, 2. *)
Example trange_3 :
  (trange mock_iterate sample_module [3] kw_none).1 = Returned [VInt 0; VInt 1; VInt 2].
Proof. reflexivity. Qed.

End AliasesRuns.

(** ** More on logging redirection *)

Section LoggingMore.
Import Logging.

Implicit Types (σ : heap) (hs : list nat).

(** The handler [_get_first_found_console_logging_handler] returns is a
    console handler with only non-console handlers before it; [None] means
    the list has no console handler at all. *)
Theorem first_found_console_is_first σ hs :
  match _get_first_found_console_logging_handler σ hs with
  | Some c =>
      ∃ pre post, hs = pre ++ c :: post ∧
        Forall (λ h, _is_console_logging_handler σ h = false) pre ∧
        _is_console_logging_handler σ c = true
  | None => Forall (λ h, _is_console_logging_handler σ h = false) hs
  end.
Proof.
  induction hs as [|h hs IH]; cbn; [by constructor|].
  destruct (_is_console_logging_handler σ h) eqn:Hh.
  - exists [], hs. by repeat split.
  - destruct (_get_first_found_console_logging_handler σ hs) as [c|].
    + destruct IH as (pre & post & -> & Hpre & Hc).
      exists (h :: pre), post. repeat split; [|done]. by constructor.
    + by constructor.
Qed.

Lemma redirect_enter_keeps_binding cls l loggers : ∀ σ,
  heap_wf σ → l ∉ loggers →
  h_loggers (redirect_enter cls loggers σ) l = h_loggers σ l.
Proof.
  unfold redirect_enter.
  induction loggers as [|a loggers IH]; intros σ Hwf Hl; [done|].
  apply not_elem_of_cons in Hl as [Hne Hl]. cbn.
  destruct (redirect_logger_spec cls σ a Hwf) as (Hwf' & _ & _ & Hlog & _).
  rewrite IH by done. by apply Hlog.
Qed.

Lemma redirect_enter_preserves cls loggers σ :
  heap_wf σ →
  heap_wf (redirect_enter cls loggers σ) ∧ preserves σ (redirect_enter cls loggers σ).
Proof.
  intros Hwf.
  destruct (redirect_enter_inv cls σ loggers σ 0%nat Hwf Hwf
              (preserves_refl σ) (or_introl eq_refl)) as (? & ? & _).
  by split.
Qed.

(** A logger that is not among the targets keeps its list object and its
    handlers when the scope is entered. *)
Theorem redirect_enter_other_loggers (loggers : option (list nat)) cls σ l :
  heap_wf σ → l ∉ default_loggers loggers →
  let σ1 := redirect_enter cls (default_loggers loggers) σ in
  h_loggers σ1 l = h_loggers σ l ∧ handlers_of σ1 l = handlers_of σ l.
Proof.
  intros Hwf Hl σ1.
  pose proof (redirect_enter_keeps_binding cls l _ σ Hwf Hl) as Hb.
  split; [done|].
  apply handlers_of_preserved; [done| |done].
  by apply redirect_enter_preserves.
Qed.

Lemma redirect_enter_other_loggers_witness :
  handlers_of (redirect_enter (UserClass 5) [0; 0]%nat sample_heap) 1%nat = [2%nat].
Proof.
  apply (redirect_enter_other_loggers (Some [0; 0]%nat) (UserClass 5) sample_heap 1%nat).
  - exact sample_heap_wf.
  - cbn. intros Hin. apply list_elem_of_In in Hin. cbn in Hin.
    destruct Hin as [H|[H|[]]]; discriminate H.
Defined.

(** Entering the scope only allocates: every list object and every handler
    object that existed before is left as it was, and no reference
    dangles afterwards. *)
Theorem redirect_enter_allocates_only (loggers : option (list nat)) cls σ :
  heap_wf σ →
  let σ1 := redirect_enter cls (default_loggers loggers) σ in
  heap_wf σ1 ∧
  (∀ r, r ∈ dom (h_lists σ) → h_lists σ1 !! r = h_lists σ !! r) ∧
  (∀ h, h ∈ dom (h_handlers σ) → h_handlers σ1 !! h = h_handlers σ !! h).
Proof.
  intros Hwf σ1.
  destruct (redirect_enter_preserves cls (default_loggers loggers) σ Hwf)
    as [Hwf1 [Hh Hl]].
  split; [done|]. by split.
Qed.

Lemma redirect_enter_allocates_only_witness :
  h_lists (redirect_enter (UserClass 5) [0; 1]%nat sample_heap) !! 0%nat =
  Some [0; 1; 2]%nat.
Proof.
  destruct (redirect_enter_allocates_only (Some [0; 1]%nat) (UserClass 5) sample_heap
              sample_heap_wf) as (_ & Hl & _).
  apply (Hl 0%nat). apply elem_of_dom. eexists. vm_compute. reflexivity.
Defined.


Lemma console_filter_app σ hs hs' :
  List.filter (_is_console_logging_handler σ) (hs ++ hs') =
  List.filter (_is_console_logging_handler σ) hs ++
  List.filter (_is_console_logging_handler σ) hs'.
Proof. apply List.filter_app. Qed.

Lemma console_filter_none σ hs :
  (∀ h, h ∈ hs → _is_console_logging_handler σ h = false) →
  List.filter (_is_console_logging_handler σ) hs = [].
Proof.
  induction hs as [|h hs IH]; intros Hn; [done|]. cbn.
  rewrite (Hn h) by apply list_elem_of_here.
  apply IH. intros h' Hh'. apply Hn. by apply list_elem_of_further.
Qed.

(** What a redirected logger looks like in the entered heap. *)
Lemma redirect_enter_redirected (loggers : list nat) cls σ l :
  heap_wf σ → l ∈ loggers →
  let σ1 := redirect_enter cls loggers σ in
  preserves σ σ1 ∧
  ∃ t, handlers_of σ1 l = non_console σ (handlers_of σ l) ++ [t] ∧
       (t ∉ dom (h_handlers σ)) ∧
       h_handlers σ1 !! t = Some (expected_handler cls σ l) ∧
       (∀ h, h ∈ non_console σ (handlers_of σ l) →
             _is_console_logging_handler σ1 h = false) ∧
       _is_console_logging_handler σ1 t = true.
Proof.
  intros Hwf Hl σ1.
  destruct (redirect_enter_inv cls σ loggers σ l Hwf Hwf
              (preserves_refl σ) (or_introl eq_refl)) as (_ & Hp & _ & Hred).
  destruct (Hred (or_introl Hl)) as (t & Hof & Hnew & Hth).
  split; [done|]. exists t. split; [done|]. split; [done|]. split; [done|]. split.
  - intros h [Hh Hn]%non_console_elem. unfold _is_console_logging_handler in *.
    destruct Hp as [Hp _]. rewrite Hp; [done|]. by apply (handlers_of_wf σ l).
  - unfold _is_console_logging_handler. subst σ1. rewrite Hth.
    apply expected_handler_console.
Qed.

(** While the scope is active the redirecting handler is the one and only
    console handler of a redirected logger, and the logger's other
    handlers are the non-console handlers it had before. *)
Theorem redirect_enter_single_console (loggers : option (list nat)) cls σ l :
  heap_wf σ → l ∈ default_loggers loggers →
  let σ1 := redirect_enter cls (default_loggers loggers) σ in
  ∃ t, List.filter (_is_console_logging_handler σ1) (handlers_of σ1 l) = [t] ∧
       (t ∉ dom (h_handlers σ)) ∧
       non_console σ1 (handlers_of σ1 l) = non_console σ (handlers_of σ l).
Proof.
  intros Hwf Hl σ1.
  destruct (redirect_enter_redirected _ cls σ l Hwf Hl)
    as (Hp & t & Hof & Hnew & Hth & HF & Ht).
  fold σ1 in Hof, Hth, HF, Ht.
  exists t. rewrite Hof. split; [|split; [done|]].
  - rewrite console_filter_app, (console_filter_none _ _ HF). cbn. by rewrite Ht.
  - rewrite non_console_app, (non_console_id _ _ HF).
    unfold non_console at 1. cbn. rewrite Ht. cbn. apply app_nil_r.
Qed.

Lemma redirect_enter_single_console_witness :
  ∃ t, List.filter
         (_is_console_logging_handler (redirect_enter (UserClass 5) [0; 0; 1]%nat sample_heap))
         (handlers_of (redirect_enter (UserClass 5) [0; 0; 1]%nat sample_heap) 0%nat) = [t] ∧
       (t ∉ dom (h_handlers sample_heap)) ∧
       non_console (redirect_enter (UserClass 5) [0; 0; 1]%nat sample_heap)
         (handlers_of (redirect_enter (UserClass 5) [0; 0; 1]%nat sample_heap) 0%nat) =
       non_console sample_heap (handlers_of sample_heap 0%nat).
Proof.
  apply (redirect_enter_single_console (Some [0; 0; 1]%nat) (UserClass 5) sample_heap 0%nat).
  - exact sample_heap_wf.
  - cbn. apply list_elem_of_here.
Defined.

(** A record that reaches the redirecting handler of a redirected logger
    is written through the given class to the stream of the console
    handler it replaced ([sys.stderr] when there was none), then flushed. *)
Theorem redirected_emit_writes_to_console_stream
    (loggers : option (list nat)) cls σ l env record msg :
  heap_wf σ → l ∈ default_loggers loggers →
  format_result env record = Returned msg →
  write_result env cls msg (redirect_stream σ l) = Returned tt →
  flush_result env (redirect_stream σ l) = Returned tt →
  let σ1 := redirect_enter cls (default_loggers loggers) σ in
  ∃ t th, handlers_of σ1 l = non_console σ (handlers_of σ l) ++ [t] ∧
          h_handlers σ1 !! t = Some th ∧
          emit env th record =
          (Returned tt, [EvFormat record; EvWrite cls msg (redirect_stream σ l);
                         EvFlush (redirect_stream σ l)]).
Proof.
  intros Hwf Hl Hfmt Hwr Hfl σ1.
  destruct (redirect_enter_redirected _ cls σ l Hwf Hl)
    as (_ & t & Hof & _ & Hth & _ & _).
  fold σ1 in Hof, Hth.
  exists t, (expected_handler cls σ l).
  split; [done|]. split; [done|].
  assert (Hk : hd_kind (expected_handler cls σ l) = TqdmLoggingHandler cls)
    by apply expected_handler_kind.
  assert (Hs : hd_stream (expected_handler cls σ l) = redirect_stream σ l).
  { unfold expected_handler, redirect_stream.
    destruct (_get_first_found_console_logging_handler σ (handlers_of σ l)); [|done].
    by destruct (h_handlers σ !! _). }
  unfold emit, tqdm_class_attr. rewrite Hk, Hs. cbn. rewrite Hfmt. cbn.
  rewrite Hwr. cbn. by rewrite Hfl.
Qed.

Lemma redirected_emit_writes_to_console_stream_witness :
  ∃ t th,
    handlers_of (redirect_enter (UserClass 5) [0]%nat sample_heap) 0%nat =
      non_console sample_heap (handlers_of sample_heap 0%nat) ++ [t] ∧
    h_handlers (redirect_enter (UserClass 5) [0]%nat sample_heap) !! t = Some th ∧
    emit (EmitEnv (λ _, Returned "text"%string) (λ _ _ _, Returned tt) (λ _, Returned tt)
                  (λ _, Returned tt))
         th 3%nat =
    (Returned tt, [EvFormat 3%nat; EvWrite (UserClass 5) "text" Stdout; EvFlush Stdout]).
Proof.
  apply (redirected_emit_writes_to_console_stream (Some [0]%nat) (UserClass 5)
           sample_heap 0%nat
           (EmitEnv (λ _, Returned "text"%string) (λ _ _ _, Returned tt) (λ _, Returned tt)
                  (λ _, Returned tt))
           3%nat "text"%string).
  - exact sample_heap_wf.
  - cbn. apply list_elem_of_here.
  - reflexivity.
  - reflexivity.
  - reflexivity.
Defined.

Lemma logging_redirect_tqdm_unfold {X} (loggers : option (list nat)) cls
    (body : heap → outcome X * heap) σ :
  logging_redirect_tqdm loggers cls body σ =
  ((body (redirect_enter cls (default_loggers loggers) σ)).1,
   redirect_exit (default_loggers loggers) (h_loggers σ <$> default_loggers loggers)
                 (body (redirect_enter cls (default_loggers loggers) σ)).2).
Proof.
  unfold logging_redirect_tqdm, original_handlers_list.
  by destruct (body _) as [[x|e] σ2].
Qed.



Lemma redirect_logger_binding cls σ l :
  h_loggers (redirect_logger cls σ l) l = fresh (dom (h_lists σ)).
Proof.
  destruct (redirect_logger_unfold cls σ l) as (σ2 & -> & _ & Hls & _).
  unfold set_handlers. cbn. rewrite fn_lookup_insert. by rewrite Hls.
Qed.

(** A redirected logger is bound to a list object created at entry. *)
Lemma redirect_enter_binding_fresh cls σ0 l loggers : ∀ σ,
  heap_wf σ → preserves σ0 σ →
  l ∈ loggers ∨ h_loggers σ l ∉ dom (h_lists σ0) →
  h_loggers (redirect_enter cls loggers σ) l ∉ dom (h_lists σ0).
Proof.
  unfold redirect_enter.
  induction loggers as [|a loggers IH]; intros σ Hwf Hp Hst; cbn [foldl].
  - by destruct Hst as [?%elem_of_nil|?].
  - destruct (redirect_logger_spec cls σ a Hwf) as (Hwf' & _ & _ & Hlog & _).
    apply IH; [done| |].
    + eapply preserves_trans; [done|]. by apply redirect_logger_preserves.
    + destruct (decide (a = l)) as [->|Hne].
      * right. rewrite redirect_logger_binding. intros Hd.
        apply (is_fresh (dom (h_lists σ))). by eapply preserves_dom_lists.
      * destruct Hst as [[?|?]%elem_of_cons|?]; [done|by left|].
        right. by rewrite Hlog.
Qed.

(** A handler added with [addHandler] to a redirected logger inside the
    scope is on the logger while the scope lasts and gone after it: the
    logger has exactly the handlers it had at entry. *)
Theorem handlers_added_in_scope_are_discarded (loggers : option (list nat)) cls σ l h :
  heap_wf σ → l ∈ default_loggers loggers →
  let σ1 := redirect_enter cls (default_loggers loggers) σ in
  let res := logging_redirect_tqdm loggers cls
               (λ σ', (Returned tt, addHandler l h σ')) σ in
  h ∈ handlers_of (addHandler l h σ1) l ∧
  handlers_of res.2 l = handlers_of σ l.
Proof.
  intros Hwf Hl σ1 res. split.
  - unfold addHandler. case_bool_decide as Hin; [done|].
    unfold handlers_of at 1, list_at, store_list. cbn.
    rewrite lookup_insert_eq. cbn. apply elem_of_app. right. apply list_elem_of_here.
  - subst res. rewrite logging_redirect_tqdm_unfold. cbn [fst snd]. fold σ1.
    destruct (redirect_exit_spec (h_loggers σ) (default_loggers loggers)
                (addHandler l h σ1)) as (Hls & _ & Hin & _).
    unfold handlers_of, list_at. rewrite Hin by done. rewrite Hls.
    destruct (redirect_enter_preserves cls (default_loggers loggers) σ Hwf)
      as [_ [_ Hp]]. fold σ1 in Hp.
    pose proof (redirect_enter_binding_fresh cls σ l (default_loggers loggers) σ
                  Hwf (preserves_refl σ) (or_introl Hl)) as Hfresh.
    fold σ1 in Hfresh.
    assert (Hd : h_loggers σ l ∈ dom (h_lists σ)) by apply Hwf.
    rewrite <- (Hp _ Hd). f_equal.
    unfold addHandler. case_bool_decide; [done|]. cbn.
    apply lookup_insert_ne. by intros Heq; rewrite Heq in Hfresh.
Qed.

Lemma handlers_added_in_scope_are_discarded_witness :
  1%nat ∈ handlers_of
    (addHandler 1%nat 1%nat (redirect_enter (UserClass 5) [0; 1]%nat sample_heap)) 1%nat ∧
  handlers_of (logging_redirect_tqdm (Some [0; 1]%nat) (UserClass 5)
                 (λ σ', (Returned tt, addHandler 1%nat 1%nat σ')) sample_heap).2 1%nat
  = [2%nat].
Proof.
  apply (handlers_added_in_scope_are_discarded (Some [0; 1]%nat) (UserClass 5)
           sample_heap 1%nat 1%nat).
  - exact sample_heap_wf.
  - cbn. apply list_elem_of_further, list_elem_of_here.
Defined.
End LoggingMore.

(** ** More on the environment selector *)

Section SelectorMore.
Import Selector.

(** Outside a notebook kernel (the [IPython] hook is missing or fails, or
    the shell is not a kernel application) the selector stops after at most
    the two lookups: it imports nothing from [tldm.notebook], does not warn
    and, unless interrupted, returns the standard class. *)
Theorem no_kernel_no_notebook_import env :
  env_get_ipython env ≠ Returned tt ∨ env_kernel_app env ≠ Returned true →
  let r := _get_auto_tldm env in
  (∀ ev, ev ∈ r.2 → ev = EvSysModules ∨ ev = EvGetIPython) ∧
  (∀ c, r.1 = Returned c → c = StdTldm) ∧
  (catchable (env_get_ipython env) → catchable (env_kernel_app env) →
   r.1 = Returned StdTldm).
Proof.
  destruct env as [gi ka wn tw ip wa nt]. unfold _get_auto_tldm.
  cbn [env_get_ipython env_kernel_app env_WARN_NOIPYW env_TldmWarning
       env_IProgress env_warn env_notebook_tldm].
  intros Hout.
  assert (Hev : ∀ ev, ev ∈ [EvSysModules; EvGetIPython] →
                      ev = EvSysModules ∨ ev = EvGetIPython).
  { intros ev [->|[->|[]%elem_of_nil]%elem_of_cons]%elem_of_cons; auto. }
  assert (Hev1 : ∀ ev, ev ∈ [EvSysModules] → ev = EvSysModules ∨ ev = EvGetIPython).
  { intros ev ->%list_elem_of_singleton. by left. }
  destruct gi as [[]|e].
  - destruct Hout as [?|Hka]; [done|].
    destruct ka as [[|]|e]; [done| |].
    + cbn. split; [exact Hev|]. split; [by intros c [= <-]|done].
    + destruct e; cbn; (split; [exact Hev|]); (split; [by intros c; try intros [= <-]|]);
        by intros _ ?.
  - destruct e; cbn; (split; [exact Hev1|]); (split; [by intros c; try intros [= <-]|]);
      by intros ? _.
Qed.

Lemma no_kernel_no_notebook_import_witness :
  (_get_auto_tldm console_env).1 = Returned StdTldm.
Proof.
  destruct (no_kernel_no_notebook_import console_env) as (_ & _ & Hstd).
  - left. discriminate.
  - by apply Hstd.
Defined.

(** In a kernel whose widget class is importable the selector returns the
    class of [tldm.notebook], after exactly these six steps and without a
    warning. *)
Theorem kernel_with_widgets_selects_notebook env w c :
  env_get_ipython env = Returned tt →
  env_kernel_app env = Returned true →
  env_WARN_NOIPYW env = Returned tt →
  env_TldmWarning env = Returned tt →
  env_IProgress env = Returned (Some w) →
  env_notebook_tldm env = Returned c →
  _get_auto_tldm env =
  (Returned c,
   [EvSysModules; EvGetIPython; EvImport "WARN_NOIPYW"; EvImport "TldmWarning";
    EvImport "IProgress"; EvImport "tldm"]).
Proof.
  destruct env as [gi ka wn tw ip wa nt]. cbn. by intros -> -> -> -> -> ->.
Qed.

Lemma kernel_with_widgets_selects_notebook_witness :
  _get_auto_tldm widgets_env =
  (Returned NotebookTldm,
   [EvSysModules; EvGetIPython; EvImport "WARN_NOIPYW"; EvImport "TldmWarning";
    EvImport "IProgress"; EvImport "tldm"]).
Proof.
  apply (kernel_with_widgets_selects_notebook widgets_env 1%nat NotebookTldm);
    reflexivity.
Defined.

End SelectorMore.

(** ** More on the iteration adapters *)

Section AliasesMore.
Import Aliases.

Variable iterate : class_ref → list pyval → list pyval.
Variable m : aliases_module.
Context `{!float_arith}.

Implicit Types (kwargs : gmap string pyval) (c : class_ref).

(** [tmap(f, A, B)] yields [f(a, b)] for the pairs of [zip(A, B)], in
    order, and as many; it constructs what [tzip(A, B)] constructs. *)
Theorem tmap_maps_over_zip function A B kwargs c :
  (∀ items, iterate c items = items) →
  select_class m (default VNone (kwargs !! "tldm_class")) = VClass c →
  let r := tmap iterate m function [A; B] kwargs in
  r.1 = Returned ((λ p, function [p.1; p.2]) <$> zip (it_items A) (it_items B)) ∧
  r.2 = (tzip iterate m A [B] kwargs).2 ∧
  (∀ results, r.1 = Returned results →
     length results = (length (it_items A) `min` length (it_items B))%nat).
Proof.
  intros Hid Hc r. subst r. unfold tmap, tzip.
  rewrite (tzip_tuples_run iterate m _ _ _ c Hc), Hid. cbn.
  rewrite py_zip_two, <- list_fmap_compose.
  split; [done|]. split; [done|].
  intros results [= <-]. by rewrite length_fmap, length_zip_min.
Qed.

(** [zip] over any number of iterables: the i-th tuple exists exactly
    when every input has an i-th item, and holds those items in order. *)
Lemma py_zip_lookup first : ∀ rest (i : nat) tuple,
  py_zip first rest !! i = Some tuple ↔
  ∃ x xs, tuple = x :: xs ∧ first !! i = Some x ∧
          Forall2 (λ (l : list pyval) y, l !! i = Some y) rest xs.
Proof.
  induction first as [|a first IH]; intros rest i tuple.
  - cbn. split; [done|]. by intros (x & xs & _ & ? & _).
  - cbn [py_zip]. destruct (mapM head rest) as [hs|] eqn:Hm.
    + apply mapM_Some in Hm.
      destruct i as [|i]; cbn.
      * split.
        -- intros [= <-]. exists a, hs. repeat split.
           eapply Forall2_impl; [|exact Hm]. intros l y Hl. by destruct l; simplify_eq/=.
        -- intros (x & xs & -> & [= <-] & Hall). do 2 f_equal.
           revert Hall. clear -Hm. revert xs.
           induction Hm as [|l y rest hs Hl Hm IHm]; intros xs Hall.
           ++ by inversion Hall.
           ++ inversion Hall as [|? x' ? xs' Hx Hall']; subst.
              destruct l; simplify_eq/=. f_equal. by apply IHm.
      * rewrite IH. split.
        -- intros (x & xs & -> & Hx & Hall). exists x, xs. repeat split; [done|].
           apply Forall2_fmap_l in Hall.
           eapply Forall2_impl; [|exact Hall]. intros l y. by destruct l.
        -- intros (x & xs & -> & Hx & Hall). exists x, xs. repeat split; [done|].
           apply Forall2_fmap_l.
           eapply Forall2_impl; [|exact Hall]. intros l y. by destruct l.
    + split; [done|]. intros (x & xs & -> & _ & Hall).
      assert (Hex : is_Some (mapM head rest)); [|by rewrite Hm in Hex; destruct Hex].
      clear -Hall. induction Hall as [|l y rest xs Hl Hall IHall]; [by eexists|].
      destruct IHall as [hs Hhs]. cbn. rewrite Hhs.
      destruct l as [|z l]; [by destruct i|]. by eexists.
Qed.

(** [tzip] over any number of iterables: the i-th tuple exists exactly
    when the first and every further iterable have an i-th item, and holds
    those items in argument order; with no further iterable the tuples are
    the 1-tuples of the first. *)
Theorem tzip_tuple_lookup iter1 iter2plus kwargs c :
  (∀ items, iterate c items = items) →
  select_class m (default VNone (kwargs !! "tldm_class")) = VClass c →
  ∃ tuples,
    (tzip iterate m iter1 iter2plus kwargs).1 = Returned (VTuple <$> tuples) ∧
    (∀ (i : nat) tuple, tuples !! i = Some tuple ↔
       ∃ x xs, tuple = x :: xs ∧ it_items iter1 !! i = Some x ∧
               Forall2 (λ it y, it_items it !! i = Some y) iter2plus xs) ∧
    (iter2plus = [] → tuples = (λ x, [x]) <$> it_items iter1).
Proof.
  intros Hid Hc. unfold tzip.
  rewrite (tzip_tuples_run iterate m _ _ _ c Hc), Hid. cbn.
  eexists. split; [done|]. split.
  - intros i tuple. rewrite py_zip_lookup. split.
    + intros (x & xs & -> & Hx & Hall). exists x, xs. repeat split; [done|].
      by apply Forall2_fmap_l in Hall.
    + intros (x & xs & -> & Hx & Hall). exists x, xs. repeat split; [done|].
      by apply Forall2_fmap_l.
  - intros ->. cbn. induction (it_items iter1) as [|x l IH]; [done|].
    cbn. by rewrite IH.
Qed.

(** [tenumerate] hands the constructor the iterable, [total] under its own
    key (also when it is [None]) and every other keyword as given, whether
    [tldm_class] is a class or another callable; a [tldm_class] that cannot
    be called is a [TypeError] before anything is constructed. *)
Theorem tenumerate_forwards_kwargs iterable start total tldm_class kwargs :
  match callable_class (select_class m tldm_class) with
  | Some c =>
      ∃ kw, (tenumerate iterate m iterable start total tldm_class kwargs).2 =
              [EvNew c (Some (it_items iterable)) kw] ∧
            kw !! "total" = Some total ∧
            ∀ key, key ≠ "total" → kw !! key = kwargs !! key
  | None => tenumerate iterate m iterable start total tldm_class kwargs =
            (Raised TypeError, [])
  end.
Proof.
  unfold tenumerate, construct.
  destruct (callable_class (select_class m tldm_class)) as [c|]; [|done].
  cbn. eexists. split; [done|]. split; [apply lookup_insert_eq|].
  intros key Hk. by apply lookup_insert_ne.
Qed.

(** The index [k] is within [range(start, stop, step)] exactly when the
    k-th term of the progression has not reached [stop]. *)
Lemma range_len_spec (start stop step k : Z) :
  step ≠ 0 → 0 ≤ k →
  k < range_len start stop step ↔
  (0 < step ∧ start + k * step < stop) ∨ (step < 0 ∧ stop < start + k * step).
Proof.
  intros Hs Hk. unfold range_len.
  repeat case_bool_decide.
  - pose proof (Z.div_mod (stop - start - 1) step Hs).
    pose proof (Z.mod_pos_bound (stop - start - 1) step ltac:(lia)). nia.
  - split; [lia|]. intros [[_ ?]|[? _]]; nia.
  - pose proof (Z.div_mod (start - stop - 1) (- step) ltac:(lia)).
    pose proof (Z.mod_pos_bound (start - stop - 1) (- step) ltac:(lia)). nia.
  - split; [lia|]. intros [[? _]|[_ ?]]; nia.
Qed.

Lemma range_items_lookup (start stop step : Z) (i : nat) :
  step ≠ 0 →
  range_items start stop step !! i =
  if bool_decide ((0 < step ∧ start + Z.of_nat i * step < stop) ∨
                  (step < 0 ∧ stop < start + Z.of_nat i * step))
  then Some (VInt (start + Z.of_nat i * step)) else None.
Proof.
  intros Hs. unfold range_items. rewrite list_lookup_fmap.
  pose proof (range_len_spec start stop step (Z.of_nat i) Hs ltac:(lia)) as Hspec.
  case_bool_decide as Hb.
  - apply Hspec in Hb. rewrite lookup_seq_lt by lia. done.
  - rewrite lookup_seq_ge; [done|]. rewrite <- Hspec in Hb. lia.
Qed.

(** [trange(start, stop, step)] yields the terms [start + i * step] that
    lie before [stop], in order; [trange(stop)] and [trange(start, stop)]
    are the cases [start = 0] and [step = 1].  The bar is always an
    instance of the class bound at import, and receives the keywords as
    given. *)
Theorem trange_yields_range (start stop step : Z) kwargs :
  (∀ items, iterate (auto_tldm m) items = items) →
  step ≠ 0 →
  ∃ items,
    trange iterate m [start; stop; step] kwargs =
      (Returned items, [EvNew (auto_tldm m) (Some items) kwargs]) ∧
    (∀ i : nat,
       items !! i =
       if bool_decide ((0 < step ∧ start + Z.of_nat i * step < stop) ∨
                       (step < 0 ∧ stop < start + Z.of_nat i * step))
       then Some (VInt (start + Z.of_nat i * step)) else None) ∧
    trange iterate m [stop] kwargs = trange iterate m [0; stop; 1] kwargs ∧
    trange iterate m [start; stop] kwargs = trange iterate m [start; stop; 1] kwargs.
Proof.
  intros Hid Hs. exists (range_items start stop step). split; [|split; [|split]].
  - unfold trange, py_range. rewrite bool_decide_eq_false_2 by done. cbn.
    by rewrite Hid.
  - intros i. by apply range_items_lookup.
  - done.
  - done.
Qed.

(** [trange] with no argument or more than three is a [TypeError], with a
    zero step a [ValueError]; no bar is constructed in either case. *)
Theorem trange_bad_arguments args kwargs :
  (length args = 0%nat ∨ (3 < length args)%nat →
   trange iterate m args kwargs = (Raised TypeError, [])) ∧
  (∀ start stop, trange iterate m [start; stop; 0] kwargs = (Raised ValueError, [])).
Proof.
  split; [|done].
  destruct args as [|a [|b [|c [|d args]]]]; cbn [length]; intros [?|?]; try lia; done.
Qed.


(** *** More on [tproduct] *)

(** The number of tuples of a product is the product of the pool sizes. *)
Lemma length_product_step (result : list (list pyval)) (pool : list pyval) :
  length (x ← result; y ← pool; [x ++ [y]]) = (length result * length pool)%nat.
Proof.
  induction result as [|x result IH]; [done|].
  cbn. rewrite length_app, IH. f_equal.
  clear. induction pool as [|y pool IH]; [done|]. cbn. by rewrite IH.
Qed.

Lemma length_product_from (pools : list (list pyval)) : ∀ acc,
  length (foldl (λ result pool, x ← result; y ← pool; [x ++ [y]]) acc pools) =
  (length acc * foldr (λ pool n, length pool * n) 1 pools)%nat.
Proof.
  induction pools as [|pool pools IH]; intros acc; cbn [foldl foldr]; [lia|].
  rewrite IH, length_product_step. lia.
Qed.

Lemma length_product (pools : list (list pyval)) :
  length (product pools) = foldr (λ pool n, length pool * n)%nat 1%nat pools.
Proof. unfold product. rewrite length_product_from. cbn. lia. Qed.

Lemma sizes_app (ps qs : list (list pyval)) :
  foldr (λ pool n, length pool * n)%nat 1%nat (ps ++ qs) =
  (foldr (λ pool n, length pool * n) 1 ps * foldr (λ pool n, length pool * n) 1 qs)%nat.
Proof. induction ps as [|p ps IH]; cbn; [lia|]. rewrite IH. lia. Qed.

Lemma sizes_repeat (pools : list (list pyval)) (r : nat) :
  foldr (λ pool n, length pool * n)%nat 1%nat (mjoin (replicate r pools)) =
  (foldr (λ pool n, length pool * n) 1 pools ^ r)%nat.
Proof.
  induction r as [|r IH]; [done|].
  change (mjoin (replicate (S r) pools)) with (pools ++ mjoin (replicate r pools)).
  rewrite sizes_app, IH. cbn. lia.
Qed.

(** The length hints of lists are their lengths. *)
Lemma length_hint_lists (ls : list (list pyval)) :
  list_map length_hint (py_list <$> ls) = Returned ((λ l, Z.of_nat (length l)) <$> ls).
Proof. induction ls as [|l ls IH]; [done|]. cbn. by rewrite IH. Qed.

Lemma sizes_Z (ls : list (list pyval)) :
  foldr Z.mul 1 ((λ l, Z.of_nat (length l)) <$> ls) =
  Z.of_nat (foldr (λ pool n, length pool * n)%nat 1%nat ls).
Proof. induction ls as [|l ls IH]; [done|]. cbn. rewrite IH. lia. Qed.

Lemma it_items_py_list (ls : list (list pyval)) : it_items <$> (py_list <$> ls) = ls.
Proof. induction ls as [|l ls IH]; [done|]. cbn. by rewrite IH. Qed.

(** For list inputs and a repeat count within the range
    [itertools.product] accepts, the [total] the adapter computes is the
    number of tuples the product yields, and full consumption makes as
    many updates: the bar ends exactly full. *)
Theorem tproduct_total_is_exact (ls : list (list pyval)) kwargs c (r : Z) :
  default (VInt 1) (kwargs !! "repeat") = VInt r →
  0 ≤ r ≤ maxsize →
  Z.of_nat (length ls) * r ≤ maxsize `div` 8 →
  kwargs !! "total" = None →
  select_class m (default VNone (kwargs !! "tldm_class")) = VClass c →
  ∃ P kw t,
    consume m (S (length P)) (TPNew (py_list <$> ls) kwargs) =
      Some (Returned P, EvNew c None kw :: t) ∧
    kw !! "total" = Some (VInt (Z.of_nat (length P))) ∧
    count_events is_update t = length P ∧
    length P = (foldr (λ pool n, length pool * n) 1 ls ^ Z.to_nat r)%nat.
Proof.
  intros Hrep Hr Hn Htot Hc.
  pose proof (tproduct_setup_hints m _ kwargs _ _ (length_hint_lists ls) Hrep
                (proj1 Hr)) as Hs.
  rewrite Hc in Hs.
  pose proof (itertools_product_hints (py_list <$> ls) _ r (length_hint_lists ls) Hr)
    as Hprod.
  rewrite length_fmap, it_items_py_list in Hprod. specialize (Hprod Hn).
  set (P := product (mjoin (replicate (Z.to_nat r) ls))) in *.
  pose proof (consume_new m _ _ _ c _ _ P (S (length P)) Hs eq_refl Hprod ltac:(lia))
    as Hrun.
  assert (HP : length P = (foldr (λ pool n, length pool * n) 1 ls ^ Z.to_nat r)%nat).
  { subst P. by rewrite length_product, sizes_repeat. }
  eexists P, _, ([EvEnter] ++ replicate (length P) EvUpdate ++ [EvExit]).
  split; [exact Hrun|]. split; [|split; [|done]].
  - rewrite setdefault_lookup, !lookup_delete_ne, Htot by done. cbn.
    rewrite sizes_Z, HP. do 2 f_equal.
    rewrite Nat2Z.inj_pow. f_equal. lia.
  - rewrite !count_events_app, count_updates_replicate.
    unfold count_events. cbn. lia.
Qed.


(** A negative [repeat] makes [total ** repeat] a float power.  When the
    product of the hints or the repeat count is too large for a float the
    power raises [OverflowError], and when the product is zero it raises
    [ZeroDivisionError], both before any bar exists; otherwise the bar is
    constructed with a float [total], entered and left again, and
    [itertools.product] raises [ValueError], or [OverflowError] for a
    repeat count below the index range.  In every case the generator is
    finished. *)
Theorem tproduct_negative_repeat iterables kwargs c lens (r : Z) :
  default (VInt 1) (kwargs !! "repeat") = VInt r →
  r < 0 →
  list_map length_hint iterables = Returned lens →
  callable_class (select_class m (default VNone (kwargs !! "tldm_class"))) = Some c →
  tproduct_next m (TPNew iterables kwargs) =
  if float_overflow (foldl Z.mul 1 lens) || float_overflow r
  then ((Raised OverflowError, []), TPFinished)
  else if bool_decide (foldl Z.mul 1 lens = 0)
  then ((Raised ZeroDivisionError, []), TPFinished)
  else ((Raised (if bool_decide (r < - maxsize - 1) then OverflowError else ValueError),
         [EvNew c None (setdefault "total" (VFloatPow (foldl Z.mul 1 lens) r)
                          (delete "tldm_class" (delete "repeat" kwargs)));
          EvEnter; EvExit]), TPFinished).
Proof.
  intros Hrep Hr Hl Hc. unfold tproduct_next, tproduct_setup, pop.
  rewrite Hrep, Hl, lookup_delete_ne by done. unfold py_pow.
  rewrite bool_decide_eq_false_2 by lia.
  destruct (float_overflow _ || float_overflow r); [done|].
  case_bool_decide; [done|].
  unfold construct, call. rewrite Hc. unfold itertools_product.
  assert (Hmax : 0 ≤ maxsize) by done.
  destruct (decide (r < - maxsize - 1)) as [Hlow|Hlow].
  - rewrite (bool_decide_eq_true_2 (r < - maxsize - 1 ∨ maxsize < r)) by lia.
    by rewrite (bool_decide_eq_true_2 (r < - maxsize - 1)) by lia.
  - rewrite (bool_decide_eq_false_2 (r < - maxsize - 1 ∨ maxsize < r)) by lia.
    rewrite (bool_decide_eq_true_2 (r < 0)) by lia.
    by rewrite (bool_decide_eq_false_2 (r < - maxsize - 1)) by lia.
Qed.

(** Failures before the constructor: a length hint that is negative
    ([ValueError]) or too large ([OverflowError]) is not caught by the
    [except TypeError] of the prologue, and a [tldm_class] that cannot be
    called is a [TypeError]; no bar is constructed and the generator is
    finished. *)
Theorem tproduct_fails_before_construction iterables kwargs :
  (∀ e, list_map length_hint iterables = Raised e → e ≠ TypeError →
   tproduct_next m (TPNew iterables kwargs) = ((Raised e, []), TPFinished)) ∧
  (∀ cls kw repeat,
     tproduct_setup m iterables kwargs = Returned (cls, kw, repeat) →
     callable_class cls = None →
     tproduct_next m (TPNew iterables kwargs) = ((Raised TypeError, []), TPFinished)).
Proof.
  split.
  - intros e Hl He. unfold tproduct_next, tproduct_setup, pop. rewrite Hl.
    by destruct e.
  - intros cls kw repeat Hs Hcls. unfold tproduct_next. rewrite Hs.
    unfold construct. by rewrite Hcls.
Qed.

Lemma run_ops_cons op ops st :
  run_ops m (op :: ops) st =
  ((gen_step m op st).1 ++ (run_ops m ops (gen_step m op st).2).1,
   (run_ops m ops (gen_step m op st).2).2).
Proof.
  destruct op; cbn [run_ops gen_step].
  - destruct (tproduct_next m st) as [[r t] st']. cbn.
    by destruct (run_ops m ops st').
  - destruct (tproduct_close st) as [t st']. cbn.
    by destruct (run_ops m ops st').
Qed.

Lemma gen_step_bar_events op st t0 :
  bar_events st t0 →
  bar_events (gen_step m op st).2 (t0 ++ (gen_step m op st).1).
Proof.
  intros Hsh. destruct op; cbn [gen_step].
  - destruct st as [iterables kwargs|rest|]; cbn [bar_events] in Hsh.
    + subst t0. unfold tproduct_next.
      destruct (tproduct_setup m iterables kwargs) as [[[cls kw] rep]|e];
        [|by left].
      unfold construct.
      destruct (callable_class cls) as [c|]; [|by left].
      cbn. destruct (itertools_product _ _) as [[|val it]|e]; cbn.
      * right. by exists c, kw, 0%nat.
      * by exists c, kw, 0%nat.
      * right. by exists c, kw, 0%nat.
    + destruct Hsh as (c & kw & k & ->). cbn [tproduct_next].
      destruct rest as [|val rest]; cbn.
      * right. exists c, kw, (S k). by rewrite replicate_S_end, <- !app_assoc.
      * exists c, kw, (S k). by rewrite replicate_S_end.
    + cbn. by rewrite app_nil_r.
  - destruct st as [iterables kwargs|rest|]; cbn [bar_events] in Hsh; cbn.
    + subst t0. by left.
    + destruct Hsh as (c & kw & k & ->). right.
      exists c, kw, k. by rewrite <- !app_assoc.
    + by rewrite app_nil_r.
Qed.

Lemma run_ops_bar_events ops : ∀ st t0,
  bar_events st t0 →
  bar_events (run_ops m ops st).2 (t0 ++ (run_ops m ops st).1).
Proof.
  induction ops as [|op ops IH]; intros st t0 Hsh.
  - cbn. by rewrite app_nil_r.
  - rewrite run_ops_cons. cbn [fst snd]. rewrite app_assoc.
    apply IH. by apply gen_step_bar_events.
Qed.

(** Whatever the consumer does with the generator, in whatever order, the
    bar is constructed at most once, entered right away, updated only while
    it is open and, once the generator has finished, left exactly once:
    never left twice, never updated after it was left. *)
Theorem tproduct_bar_discipline ops iterables kwargs :
  let t := (run_ops m ops (TPNew iterables kwargs)).1 in
  match (run_ops m ops (TPNew iterables kwargs)).2 with
  | TPNew _ _ => t = []
  | TPSuspended _ =>
      ∃ c kw (k : nat), t = [EvNew c None kw; EvEnter] ++ replicate k EvUpdate
  | TPFinished =>
      t = [] ∨
      ∃ c kw (k : nat), t = [EvNew c None kw; EvEnter] ++ replicate k EvUpdate ++ [EvExit]
  end.
Proof. exact (run_ops_bar_events ops (TPNew iterables kwargs) [] eq_refl). Qed.

End AliasesMore.

(** ** More concrete runs *)

Section AliasesMoreRuns.
Import Aliases.

#[local] Existing Instance sample_float_arith.

Lemma tmap_maps_over_zip_witness :
  (tmap mock_iterate sample_module add_pair
        [list_12; py_generator [VInt 10; VInt 20; VInt 30]] kw_none).1 =
  Returned [VInt 11; VInt 22].
Proof.
  apply (tmap_maps_over_zip mock_iterate sample_module add_pair
           list_12 (py_generator [VInt 10; VInt 20; VInt 30]) kw_none StdTldm).
  - exact MockTldm_iter_id.
  - reflexivity.
Defined.

Lemma tzip_tuple_lookup_witness :
  ∃ tuples,
    (tzip mock_iterate sample_module list_12 [] kw_mock_class).1 =
      Returned (VTuple <$> tuples) ∧
    tuples = [[VInt 1]; [VInt 2]].
Proof.
  destruct (tzip_tuple_lookup mock_iterate sample_module list_12 [] kw_mock_class
              (UserClass 0) MockTldm_iter_id ltac:(vm_compute; reflexivity))
    as (tuples & Hrun & _ & Hsingle).
  exists tuples. split; [exact Hrun|]. exact (Hsingle eq_refl).
Defined.

Lemma trange_yields_range_witness :
  ∃ items,
    trange mock_iterate sample_module [10; 3; -3] kw_none =
      (Returned items, [EvNew StdTldm (Some items) kw_none]) ∧
    items !! 2%nat = Some (VInt 4) ∧ items !! 3%nat = None.
Proof.
  destruct (trange_yields_range mock_iterate sample_module 10 3 (-3) kw_none
              MockTldm_iter_id ltac:(lia)) as (items & Hrun & Hlookup & _).
  exists items. split; [exact Hrun|]. split.
  - rewrite (Hlookup 2%nat). reflexivity.
  - rewrite (Hlookup 3%nat). reflexivity.
Defined.

Lemma trange_bad_arguments_witness :
  trange mock_iterate sample_module [] kw_none = (Raised TypeError, []).
Proof.
  destruct (trange_bad_arguments mock_iterate sample_module [] kw_none) as [Hargs _].
  apply Hargs. by left.
Defined.

Lemma tproduct_total_is_exact_witness :
  ∃ P kw t,
    consume sample_module (S (length P))
      (TPNew (py_list <$> [[VInt 1; VInt 2]; [VInt 3; VInt 4; VInt 5]]) kw_repeat_2) =
      Some (Returned P, EvNew StdTldm None kw :: t) ∧
    kw !! "total" = Some (VInt (Z.of_nat (length P))) ∧
    count_events is_update t = length P ∧
    length P = 36%nat.
Proof.
  apply (tproduct_total_is_exact sample_module
           [[VInt 1; VInt 2]; [VInt 3; VInt 4; VInt 5]] kw_repeat_2 StdTldm 2).
  - reflexivity.
  - by vm_compute.
  - by vm_compute.
  - reflexivity.
  - reflexivity.
Defined.


Lemma tproduct_negative_repeat_witness :
  tproduct_next sample_module (TPNew [list_12; list_34] kw_repeat_neg) =
  ((Raised ValueError,
    [EvNew StdTldm None {["total" := VFloatPow 4 (-1)]}; EvEnter; EvExit]),
   TPFinished).
Proof.
  apply (tproduct_negative_repeat sample_module [list_12; list_34] kw_repeat_neg
           StdTldm [2; 2] (-1)).
  - reflexivity.
  - lia.
  - reflexivity.
  - reflexivity.
Defined.

Lemma tproduct_fails_before_construction_witness :
  tproduct_next sample_module (TPNew [list_12; bad_hint] kw_none) =
    ((Raised ValueError, []), TPFinished) ∧
  tproduct_next sample_module (TPNew [list_12] kw_bad_class) =
    ((Raised TypeError, []), TPFinished).
Proof.
  split.
  - destruct (tproduct_fails_before_construction sample_module [list_12; bad_hint] kw_none)
      as [Hhint _].
    apply Hhint; [reflexivity|discriminate].
  - destruct (tproduct_fails_before_construction sample_module [list_12] kw_bad_class)
      as [_ Hcls].
    apply (Hcls (VInt 7) {["total" := VInt 2]} (VInt 1)); reflexivity.
Defined.

(** With [repeat=0] [itertools.product] does not look at its inputs, but
    the prologue of [tproduct] does: an input whose length hint is refused
    makes [tproduct] raise where the product has its one empty tuple. *)
Example tproduct_repeat_0_bad_hint :
  itertools_product [bad_hint] (VInt 0) = Returned [[]] ∧
  tproduct_next sample_module (TPNew [bad_hint] kw_repeat_0) =
    ((Raised ValueError, []), TPFinished).
Proof. split; reflexivity. Qed.

(** A repeat count beyond the index range: the bar is constructed,
    entered and left, and [itertools.product] raises [OverflowError]. *)
Example tproduct_repeat_too_large :
  ∃ kw, tproduct_next sample_module
          (TPNew [py_list [VInt 1]] {["repeat" := VInt (2 ^ 63)]}) =
        ((Raised OverflowError, [EvNew StdTldm None kw; EvEnter; EvExit]), TPFinished) ∧
        kw !! "total" = Some (VInt 1).
Proof.
  eexists. split.
  - unfold tproduct_next, tproduct_setup, pop.
    rewrite lookup_singleton_eq. cbn [default list_map length_hint py_list it_len].
    unfold py_pow, id. rewrite bool_decide_eq_true_2 by (by vm_compute).
    replace (foldl Z.mul 1 [Z.of_nat (length [VInt 1])] ^ 2 ^ 63) with 1
      by (symmetry; apply Z.pow_1_l; by vm_compute).
    reflexivity.
  - reflexivity.
Qed.


End AliasesMoreRuns.
